(** * SDLC_Principles.py: numeric and tabular summary utilities

    A shallow embedding of the refactored functions of
    [src/SDLC_Principles.py]:

    - [generate_numbers], [calculate_average], [find_max]      (lines 45-59)
    - [load_data], [calculate_column_mean], [find_column_max],
      [filter_by_category]                                     (lines 125-204)

    Python exceptions are values of [exn]; a call either returns ([Ok]) or
    raises ([Raise]).  Python [int] is [Z] (unbounded), a Python [float] is
    a finite binary64 number given by mantissa and exponent, and the
    pseudo-random generator and the pandas reader and aggregates are
    parameters of the sections that use them.  A table has distinct
    column labels, as every table read by [pd.read_csv] has. *)

From Stdlib Require Import ZArith Lia Bool SpecFloat.
From stdpp Require Import base list strings pretty.

Local Open Scope Z_scope.

(** ** Exceptions and results *)

(** The exception classes that can reach a caller of this module.  All of
    them derive from Python's [Exception], so [except Exception] catches
    every one of them. *)
Inductive exn_class : Type :=
  | ValueError
  | OverflowError
  | ZeroDivisionError
  | TypeError
  | OtherException (name : string).

(** An exception: its class and [str(e)]. *)
Record exn : Type := Exn { exn_class_of : exn_class; exn_str : string }.

Inductive result (A : Type) : Type :=
  | Ok (a : A)
  | Raise (e : exn).
Arguments Ok {A} a.
Arguments Raise {A} e.

Definition bind {A B} (r : result A) (k : A -> result B) : result B :=
  match r with
  | Ok a => k a
  | Raise e => Raise e
  end.

(** [try: body  except Exception as e: handler(e)] *)
Definition try_except {A} (body : result A) (handler : exn -> result A) : result A :=
  match body with
  | Ok a => Ok a
  | Raise e => handler e
  end.

(** ** Python floats and true division of integers *)

(** A finite binary64 value [mant * 2 ^ expo].  The values built below are
    canonical: either [2^52 <= |mant| < 2^53] and [-1074 <= expo <= 971],
    or [|mant| < 2^52] and [expo = -1074] (subnormal numbers and zero). *)
Record float : Type := Float { mant : Z; expo : Z }.

(** The value of a float counted in units of [2^-1074], the smallest
    positive binary64 number; an integer for every canonical float. *)
Definition float_units (f : float) : Z := mant f * 2 ^ (expo f + 1074).

Definition canonical (f : float) : Prop :=
  (2 ^ 52 <= Z.abs (mant f) < 2 ^ 53 /\ -1074 <= expo f <= 971) \/
  (Z.abs (mant f) < 2 ^ 52 /\ expo f = -1074).

(** Any mantissa and exponent that denote a finite binary64 value. *)
Definition representable (f : float) : Prop :=
  Z.abs (mant f) < 2 ^ 53 /\ -1074 <= expo f <= 971.

(** The distance between a float and the rational [a / b], for [0 < b],
    scaled by [b * 2^1074] so that it is an integer. *)
Definition distance (f : float) (a b : Z) : Z :=
  Z.abs (float_units f * b - a * 2 ^ 1074).

(** Nearest integer to [n / d], ties to the even neighbour ([0 < d]). *)
Definition round_half_even (n d : Z) : Z :=
  let q := n / d in
  match 2 * (n mod d) ?= d with
  | Lt => q
  | Gt => q + 1
  | Eq => if Z.even q then q else q + 1
  end.

(** Exponent (biased by 1074) of the last mantissa bit of [n / d]: the
    quotient counted in units of [2^-1074] has [Z.log2 .. + 1] bits before
    the point, of which 53 are kept; below that the exponent stays at its
    minimum. *)
Definition quotient_exp (n d : Z) : Z :=
  Z.max (Z.log2 (n * 2 ^ 1074 / d) - 52) 0.

(** [n / d] rounded to binary64 for [0 <= n] and [0 < d]: mantissa and
    exponent, not yet checked for overflow. *)
Definition round_ratio (n d : Z) : Z * Z :=
  let e := quotient_exp n d in
  let m := round_half_even (n * 2 ^ 1074) (d * 2 ^ e) in
  if m =? 2 ^ 53 then (2 ^ 52, e + 1 - 1074) else (m, e - 1074).

Definition overflow_error : exn :=
  Exn OverflowError "integer division result too large for a float".

(** [a / b] on Python integers: the exact quotient correctly rounded
    (round-half-even) with the sign of the quotient, [ZeroDivisionError]
    for a zero divisor and [OverflowError] when the rounded quotient is
    not a finite float. *)
Definition int_truediv (a b : Z) : result float :=
  if b =? 0 then Raise (Exn ZeroDivisionError "division by zero")
  else
    let '(m, e) := round_ratio (Z.abs a) (Z.abs b) in
    if 971 <? e then Raise overflow_error
    else Ok (Float (Z.sgn a * Z.sgn b * m) e).

(** ** Numeric summary utilities *)

(** [sum(numbers)]: the elements added from left to right, starting
    from 0. *)
Definition sum (numbers : list Z) : Z := foldl Z.add 0 numbers.

(** [len(numbers)] *)
Definition len {A} (l : list A) : Z := Z.of_nat (length l).

(** [max(numbers)] on a non-empty list: the running maximum, starting from
    the first element. *)
Definition max_from (x : Z) (rest : list Z) : Z := foldl Z.max x rest.

Definition empty_input : exn := Exn ValueError "List of numbers cannot be empty".

(** Lines 49-53. *)
Definition calculate_average (numbers : list Z) : result float :=
  match numbers with
  | [] => Raise empty_input
  | _ :: _ => int_truediv (sum numbers) (len numbers)
  end.

(** Lines 55-59. *)
Definition find_max (numbers : list Z) : result Z :=
  match numbers with
  | [] => Raise empty_input
  | x :: rest => Ok (max_from x rest)
  end.

(** *** The random source *)

Section RandomSource.

(** The generator state and one call of the generator's [_randbelow]
    at the width in use: [draw] gives the state the call leaves, however
    many words the call has consumed, and an integer whose residue is the
    number returned.  Nothing is assumed about either. *)
Variable rng : Type.
Variable draw : rng -> Z * rng.

(** Computations that use the generator and may raise. *)
Definition Rand (A : Type) : Type := rng -> result A * rng.

Definition rret {A} (a : A) : Rand A := fun s => (Ok a, s).

Definition rraise {A} (e : exn) : Rand A := fun s => (Raise e, s).

Definition rbind {A B} (c : Rand A) (k : A -> Rand B) : Rand B :=
  fun s =>
    match c s with
    | (Ok a, s') => k a s'
    | (Raise e, s') => (Raise e, s')
    end.

(** [Random._randbelow(n)] for [0 < n]: one call, returning a number in
    [[0, n)]. *)
Definition randbelow (n : Z) : Rand Z :=
  fun s => let '(r, s') := draw s in (Ok (r mod n), s').

(** The text of the error for an empty range, as CPython 3.11 words it:
    ["empty range for randrange() (%d, %d, %d)" % (start, stop, width)].
    Other versions word it differently; the class is [ValueError] in all
    of them. *)
Definition empty_range_text (start stop width : Z) : string :=
  "empty range for randrange() (" +:+ pretty start +:+ ", " +:+ pretty stop
    +:+ ", " +:+ pretty width +:+ ")".

(** [Random.randrange(start, stop)] *)
Definition randrange (start stop : Z) : Rand Z :=
  let width := stop - start in
  if 0 <? width
  then rbind (randbelow width) (fun r => rret (start + r))
  else rraise (Exn ValueError (empty_range_text start stop width)).

(** [random.randint(a, b)] is [randrange(a, b + 1)]. *)
Definition randint (a b : Z) : Rand Z := randrange a (b + 1).

(** [[body for _ in range(..)]] with [k] iterations left. *)
Fixpoint comprehension {A} (k : nat) (body : Rand A) : Rand (list A) :=
  match k with
  | O => rret []
  | S k' => rbind body (fun x => rbind (comprehension k' body) (fun xs => rret (x :: xs)))
  end.

(** [len(range(count))]: no iteration at all for a negative [count]. *)
Definition range_len (count : Z) : nat := Z.to_nat count.

(** Lines 45-47. *)
Definition generate_numbers (count lower upper : Z) : Rand (list Z) :=
  comprehension (range_len count) (randint lower upper).

End RandomSource.

Arguments rret {rng A} a.
Arguments rraise {rng A} e.
Arguments rbind {rng A B} c k.
Arguments comprehension {rng A} k body.

(** A concrete generator for examples: a counter that hands out its own
    state scaled by a constant. *)
Definition counter_draw (s : Z) : Z * Z := (7919 * s + 13, s + 1).

(** ** Tables *)

(** A value stored in a table: pandas keeps integers, floats and strings,
    and marks a missing value by NaN. *)
Inductive cell : Type :=
  | CInt (z : Z)
  | CFloat (x : float)
  | CStr (s : string)
  | CNaN.

(** A row: its index label and its values, one per column. *)
Record row : Type := Row { label : Z; cells : list cell }.

(** [pd.Series]: the values of one column, in row order. *)
Definition Series : Type := list cell.

(** No label occurs twice. *)
Fixpoint distinct (cols : list string) : bool :=
  match cols with
  | [] => true
  | c :: cols' => negb (existsb (String.eqb c) cols') && distinct cols'
  end.

(** [pd.DataFrame] with distinct column labels.  [pd.read_csv] renames
    repeated headers, so every table the scripts read is of this kind,
    and no function of the file changes the labels.  For a repeated
    label pandas' [df[column]] is a frame and not a series; such tables
    are outside this model. *)
Record DataFrame : Type :=
  Frame { columns : list string;
          distinct_labels : distinct columns = true;
          rows : list row }.

#[global] Instance float_eq_dec : EqDecision float.
Proof. solve_decision. Defined.

#[global] Instance cell_eq_dec : EqDecision cell.
Proof. solve_decision. Defined.

(** [column in df.columns] *)
Definition has_column (df : DataFrame) (column : string) : bool :=
  bool_decide (column ∈ columns df).

(** [df.empty]: some axis has length zero. *)
Definition df_empty (df : DataFrame) : bool :=
  match columns df, rows df with
  | _ :: _, _ :: _ => false
  | _, _ => true
  end.

(** [series.empty] *)
Definition series_empty (s : Series) : bool :=
  match s with
  | [] => true
  | _ :: _ => false
  end.

(** Position of a column label. *)
Fixpoint get_loc (column : string) (cols : list string) : option nat :=
  match cols with
  | [] => None
  | c :: cols' => if String.eqb c column then Some O else S <$> get_loc column cols'
  end.

(** The value of a row at a column position. *)
Definition cell_at (i : nat) (r : row) : cell := default CNaN (cells r !! i).

(** [df[column]]: the series of the column with this label, the only
    one as the labels are distinct; [KeyError] for an unknown label, whose
    text is the quoted label. *)
Definition getitem (df : DataFrame) (column : string) : result Series :=
  match get_loc column (columns df) with
  | Some i => Ok (cell_at i <$> rows df)
  | None => Raise (Exn (OtherException "KeyError") ("'" +:+ column +:+ "'"))
  end.

(** One comparison of [series == value] for a string [value]: only an
    equal string compares equal. *)
Definition cell_eq_str (value : string) (c : cell) : bool :=
  match c with
  | CStr s => String.eqb s value
  | _ => false
  end.

(** [series == value] *)
Definition series_eq (s : Series) (value : string) : list bool :=
  cell_eq_str value <$> s.

(** The elements of [l] at the positions where the mask is true. *)
Fixpoint select {A} (l : list A) (mask : list bool) : list A :=
  match l, mask with
  | x :: l', b :: mask' => if b then x :: select l' mask' else select l' mask'
  | _, _ => []
  end.

(** [df[mask]] *)
Definition boolean_index (df : DataFrame) (mask : list bool) : DataFrame :=
  Frame (columns df) (distinct_labels df) (select (rows df) mask).

(** Number of elements of the slice [[:n]] of a sequence of [size]
    elements: a negative [n] counts from the end. *)
Definition slice_stop (n : Z) (size : nat) : nat :=
  if 0 <=? n then Z.to_nat n else Z.to_nat (Z.of_nat size + n).

(** [df.head(n)] is [df.iloc[:n]]. *)
Definition head (n : Z) (df : DataFrame) : DataFrame :=
  Frame (columns df) (distinct_labels df)
    (take (slice_stop n (length (rows df))) (rows df)).

(** ** Tabular summary utilities *)

Definition empty_data : exn := Exn ValueError "Loaded data is empty".

Definition load_failure (url : string) (e : exn) : exn :=
  Exn ValueError ("Failed to load data from " +:+ url +:+ ": " +:+ exn_str e).

Definition column_not_found (column : string) : exn :=
  Exn ValueError ("Column '" +:+ column +:+ "' not found in DataFrame").

Definition empty_column (column : string) : exn :=
  Exn ValueError ("Column '" +:+ column +:+ "' contains no data").

Section Pandas.

(** The reader and the two aggregates are pandas' own: [pd.read_csv]
    gives a table or raises, [Series.mean] and [Series.max] give a
    value or raise. *)
Variable read_csv : string -> result DataFrame.
Variable series_mean : Series -> result cell.
Variable series_max : Series -> result cell.

(** Lines 125-144. *)
Definition load_data (url : string) : result DataFrame :=
  try_except
    (bind (read_csv url) (fun df =>
       if df_empty df then Raise empty_data else Ok df))
    (fun e => Raise (load_failure url e)).

(** Lines 146-164. *)
Definition calculate_column_mean (df : DataFrame) (column : string) : result cell :=
  if negb (has_column df column) then Raise (column_not_found column)
  else
    bind (getitem df column) (fun s =>
      if series_empty s then Raise (empty_column column)
      else series_mean s).

(** Lines 166-184. *)
Definition find_column_max (df : DataFrame) (column : string) : result cell :=
  if negb (has_column df column) then Raise (column_not_found column)
  else
    bind (getitem df column) (fun s =>
      if series_empty s then Raise (empty_column column)
      else series_max s).

End Pandas.

(** Lines 186-204. *)
Definition filter_by_category (df : DataFrame) (column value : string) (limit : Z)
  : result DataFrame :=
  if negb (has_column df column) then Raise (column_not_found column)
  else
    bind (getitem df column) (fun s =>
      Ok (head limit (boolean_index df (series_eq s value)))).

(** A small table in the shape of the iris data. *)
Definition iris_sample : DataFrame :=
  Frame ["sepal_length"; "species"] eq_refl
    [ Row 0 [CFloat (Float 5742089524897382 (-50)); CStr "setosa"];
      Row 1 [CFloat (Float 7881299347898368 (-50)); CStr "versicolor"];
      Row 2 [CFloat (Float 5516909543528858 (-50)); CStr "setosa"];
      Row 3 [CNaN; CStr "setosa"];
      Row 4 [CFloat (Float 7093169413108531 (-50)); CStr "virginica"] ].

(** A header line and nothing else: the table pandas reads has the column
    and no row. *)
Definition header_only : DataFrame := Frame ["species"] eq_refl [].

(** Stand-ins for the pandas aggregates in the examples: the first value
    of the column. *)
Definition first_value (s : Series) : result cell :=
  match s with
  | [] => Ok CNaN
  | c :: _ => Ok c
  end.

(** ** The scripts

    The file is also a script: the unstructured first versions (lines 6-21
    and 93-104) and the two [__main__] blocks (lines 61-66 and 206-224)
    run the functions and print their results.  A run is what was printed,
    in order, and the exception that ended it, if any.  A printed item
    keeps the text and the value; how [print] formats a value is not
    modelled. *)

Inductive printed : Type :=
  | PNumbers (text : string) (l : list Z)
  | PFloat (text : string) (x : float)
  | PInt (text : string) (z : Z)
  | PCell (text : string) (c : cell)
  | PText (text : string)
  | PFrame (df : DataFrame).

Record run : Type := Run { stdout : list printed; uncaught : option exn }.

(** A statement that may raise, executed after [out] has been printed:
    an exception ends the run and leaves [out] on the screen. *)
Definition step {A} (out : list printed) (r : result A) (k : A -> run) : run :=
  match r with
  | Ok a => k a
  | Raise e => Run out (Some e)
  end.

(** Lines 10-12: [total = 0; for n in numbers: total += n]. *)
Definition total_loop (numbers : list Z) : Z :=
  foldl (fun total n => total + n) 0 numbers.

(** Lines 18-20: [for n in numbers: if n > max_num: max_num = n]. *)
Definition max_loop (max_num : Z) (numbers : list Z) : Z :=
  foldl (fun max_num n => if n >? max_num then n else max_num) max_num numbers.

(** [numbers[0]] *)
Definition first_item (numbers : list Z) : result Z :=
  match numbers with
  | [] => Raise (Exn (OtherException "IndexError") "list index out of range")
  | x :: _ => Ok x
  end.

(** Lines 9-21, after [numbers] has been generated and printed. *)
Definition messy_statistics (numbers : list Z) : run :=
  let out := [PNumbers "Generated numbers:" numbers] in
  step out (int_truediv (total_loop numbers) (len numbers)) (fun average =>
  let out := out ++ [PFloat "Average:" average] in
  step out (first_item numbers) (fun max_num =>
  Run (out ++ [PInt "Max:" (max_loop max_num numbers)]) None)).

(** Lines 64-66, after [nums] has been generated. *)
Definition main_statistics (nums : list Z) : run :=
  let out := [PNumbers "Generated numbers:" nums] in
  step out (calculate_average nums) (fun average =>
  let out := out ++ [PFloat "Average:" average] in
  step out (find_max nums) (fun max_num =>
  Run (out ++ [PInt "Max:" max_num]) None)).

Section NumericScripts.

Variable rng : Type.
Variable draw : rng -> Z * rng.

(** Lines 6-21. *)
Definition messy_numeric (s : rng) : run * rng :=
  match comprehension (range_len 10) (randint rng draw 1 100) s with
  | (Ok numbers, s') => (messy_statistics numbers, s')
  | (Raise e, s') => (Run [] (Some e), s')
  end.

(** Lines 61-66; [generate_numbers(10)] takes the default bounds 1 and
    100. *)
Definition main_numeric (s : rng) : run * rng :=
  match generate_numbers rng draw 10 1 100 s with
  | (Ok nums, s') => (main_statistics nums, s')
  | (Raise e, s') => (Run [] (Some e), s')
  end.

(** The generator state after [k] calls of [draw]. *)
Fixpoint after_draws (k : nat) (s : rng) : rng :=
  match k with
  | O => s
  | S k' => after_draws k' (snd (draw s))
  end.

End NumericScripts.

Definition IRIS_URL : string :=
  "https://raw.githubusercontent.com/mwaskom/seaborn-data/master/iris.csv".

Section TabularScripts.

Variable read_csv : string -> result DataFrame.
Variable series_mean : Series -> result cell.
Variable series_max : Series -> result cell.

(** Lines 93-104: no check at all; [head()] keeps 5 rows. *)
Definition messy_tabular : run :=
  step [] (read_csv IRIS_URL) (fun df =>
  step [] (bind (getitem df "sepal_length") series_mean) (fun avg =>
  let out := [PCell "Average sepal length:" avg] in
  step out (bind (getitem df "petal_width") series_max) (fun mx =>
  let out := out ++ [PCell "Max petal width:" mx] in
  step out (getitem df "species") (fun species =>
  Run (out ++ [PFrame (head 5 (boolean_index df (series_eq species "setosa")))])
      None)))).

(** Lines 206-224; [filter_by_category] takes the default limit 10. *)
Definition main_tabular : run :=
  step [] (load_data read_csv IRIS_URL) (fun df =>
  step [] (calculate_column_mean series_mean df "sepal_length") (fun avg_sepal =>
  let out := [PCell "Average sepal length:" avg_sepal] in
  step out (find_column_max series_max df "petal_width") (fun max_petal =>
  let out := out ++ [PCell "Max petal width:" max_petal] in
  step out (filter_by_category df "species" "setosa" 10) (fun setosa_data =>
  Run (out ++ [PText "
Setosa species (first 10 rows):"; PFrame setosa_data])
      None)))).

End TabularScripts.

(** Negation of a float. *)
Definition float_neg (f : float) : float := Float (- mant f) (expo f).

(** A table with the three columns the scripts read. *)
Definition iris_rows : DataFrame :=
  Frame ["sepal_length"; "petal_width"; "species"] eq_refl
    [ Row 0 [CFloat (Float 5742089524897382 (-50)); CFloat (Float 7205759403792794 (-55));
             CStr "setosa"];
      Row 1 [CFloat (Float 7881299347898368 (-50)); CFloat (Float 6305039478318694 (-52));
             CStr "versicolor"];
      Row 2 [CFloat (Float 5516909543528858 (-50)); CFloat (Float 7205759403792794 (-55));
             CStr "setosa"] ].

(** * Properties *)

(** ** True division: rounding *)

Lemma round_half_even_bounds n d :
  0 < d -> n / d <= round_half_even n d <= n / d + 1.
Proof.
  intros Hd. unfold round_half_even.
  destruct (2 * (n mod d) ?= d); [destruct (Z.even (n / d))|..]; lia.
Qed.

(** The rounded quotient is within one half of the exact one. *)
Lemma round_half_even_error n d :
  0 < d -> 2 * Z.abs (round_half_even n d * d - n) <= d.
Proof.
  intros Hd. unfold round_half_even.
  pose proof (Z.div_mod n d ltac:(lia)) as Hdiv.
  pose proof (Z.mod_pos_bound n d Hd) as Hmod.
  set (q := n / d) in *. set (r := n mod d) in *.
  destruct (Z.compare_spec (2 * r) d) as [Heq|Hlt|Hgt];
    [destruct (Z.even q)|..]; lia.
Qed.

(** Rounding up happens exactly from the half on, ties going to the even
    neighbour. *)
Lemma round_half_even_up n d k :
  0 < d -> Z.odd k = true -> n / d = k ->
  (round_half_even n d = k + 1 <-> (2 * k + 1) * d <= 2 * n).
Proof.
  intros Hd Hodd Hq. unfold round_half_even.
  pose proof (Z.div_mod n d ltac:(lia)) as Hdiv.
  pose proof (Z.mod_pos_bound n d Hd) as Hmod.
  rewrite Hq in *. set (r := n mod d) in *.
  rewrite <- Z.negb_odd, Hodd. simpl.
  destruct (Z.compare_spec (2 * r) d) as [Heq|Hlt|Hgt]; lia.
Qed.

(** The exponent chosen for [n / d] leaves a quotient of at most 53 bits,
    and of exactly 53 bits above the minimal exponent. *)
Lemma quotient_exp_bounds n d :
  0 <= n -> 0 < d ->
  0 <= quotient_exp n d /\
  0 <= n * 2 ^ 1074 / (d * 2 ^ quotient_exp n d) < 2 ^ 53 /\
  (0 < quotient_exp n d -> 2 ^ 52 <= n * 2 ^ 1074 / (d * 2 ^ quotient_exp n d)).
Proof.
  intros Hn Hd. unfold quotient_exp.
  set (N := n * 2 ^ 1074). assert (HN : 0 <= N) by (subst N; lia).
  assert (Hq0 : 0 <= N / d) by (apply Z.div_pos; lia).
  set (L := Z.log2 (N / d)).
  assert (HL : 0 <= L) by apply Z.log2_nonneg.
  split; [lia|].
  rewrite <- Z.div_div by lia.
  destruct (Z.max_spec (L - 52) 0) as [[Hle ->]|[Hle ->]].
  - (* the minimal exponent *)
    rewrite Z.pow_0_r, Z.div_1_r. split; [|lia]. split; [done|].
    destruct (Z.eq_dec (N / d) 0) as [->|Hnz]; [done|].
    pose proof (Z.log2_spec (N / d) ltac:(lia)) as [_ Hup]. fold L in Hup.
    eapply Z.lt_le_trans; [exact Hup|].
    apply Z.pow_le_mono_r; lia.
  - (* 53 bits are kept *)
    assert (Hpos : 0 < N / d).
    { destruct (Z.eq_dec (N / d) 0) as [Hz|Hnz]; [|lia].
      subst L. rewrite Hz in Hle. simpl in Hle. lia. }
    pose proof (Z.log2_spec (N / d) Hpos) as [Hlo Hup]. fold L in Hlo, Hup.
    assert (H2 : 0 < 2 ^ (L - 52)) by (apply Z.pow_pos_nonneg; lia).
    assert (HpL : 2 ^ L = 2 ^ 52 * 2 ^ (L - 52)).
    { rewrite <- Z.pow_add_r by lia. f_equal. lia. }
    assert (HpL' : 2 ^ Z.succ L = 2 ^ 53 * 2 ^ (L - 52)).
    { rewrite <- Z.pow_add_r by lia. f_equal. lia. }
    split; [split|].
    + apply Z.div_pos; lia.
    + apply Z.div_lt_upper_bound; [done|]. lia.
    + intros _. apply Z.div_le_lower_bound; [done|]. lia.
Qed.

(** [round_ratio] yields a canonical mantissa and exponent whose value is
    within half a unit in the last place of [n / d]. *)
Lemma round_ratio_spec n d m e :
  0 <= n -> 0 < d ->
  round_ratio n d = (m, e) ->
  ((2 ^ 52 <= m < 2 ^ 53 /\ -1074 <= e) \/ (0 <= m < 2 ^ 52 /\ e = -1074)) /\
  2 * Z.abs (m * 2 ^ (e + 1074) * d - n * 2 ^ 1074) <= d * 2 ^ (e + 1074).
Proof.
  intros Hn Hd. unfold round_ratio.
  destruct (quotient_exp_bounds n d Hn Hd) as (He & [Hq0 Hq53] & Hq52).
  set (e' := quotient_exp n d) in *.
  assert (Hpow : 0 < 2 ^ e') by (apply Z.pow_pos_nonneg; lia).
  assert (HD : 0 < d * 2 ^ e') by lia.
  pose proof (round_half_even_bounds (n * 2 ^ 1074) _ HD) as Hm.
  pose proof (round_half_even_error (n * 2 ^ 1074) _ HD) as Herr.
  set (m0 := round_half_even (n * 2 ^ 1074) (d * 2 ^ e')) in *.
  set (N := n * 2 ^ 1074) in *.
  destruct (Z.eqb_spec m0 (2 ^ 53)) as [Heq|Hne]; intros [= <- <-].
  - split; [left; lia|].
    replace (e' + 1 - 1074 + 1074) with (Z.succ e') by lia.
    rewrite Z.pow_succ_r by done.
    replace (2 ^ 52 * (2 * 2 ^ e') * d - N) with (m0 * (d * 2 ^ e') - N)
      by (rewrite Heq; change (2 ^ 53) with (2 * 2 ^ 52); ring).
    lia.
  - replace (e' - 1074 + 1074) with e' by lia.
    replace (m0 * 2 ^ e' * d - N) with (m0 * (d * 2 ^ e') - N) by ring.
    split; [|lia].
    destruct (Z_lt_le_dec 0 e') as [Hpos|Hzero].
    + left. specialize (Hq52 Hpos). lia.
    + assert (e' = 0) as -> by lia.
      destruct (Z_lt_le_dec m0 (2 ^ 52)); [right|left]; lia.
Qed.

(** The rounded quotient leaves the range of finite floats exactly when
    [n / d] reaches [2^1024 - 2^970], half a unit in the last place above
    the largest float. *)
Lemma round_ratio_overflow n d m e :
  0 <= n -> 0 < d ->
  round_ratio n d = (m, e) ->
  (971 < e <-> (2 ^ 1024 - 2 ^ 970) * d <= n).
Proof.
  intros Hn Hd. unfold round_ratio.
  destruct (quotient_exp_bounds n d Hn Hd) as (He & [Hq0 Hq53] & Hq52).
  set (e' := quotient_exp n d) in *.
  assert (Hpow : 0 < 2 ^ e') by (apply Z.pow_pos_nonneg; lia).
  assert (HD : 0 < d * 2 ^ e') by lia.
  pose proof (round_half_even_bounds (n * 2 ^ 1074) _ HD) as Hm.
  pose proof (Z.div_mod (n * 2 ^ 1074) (d * 2 ^ e') ltac:(lia)) as Hdiv.
  pose proof (Z.mod_pos_bound (n * 2 ^ 1074) (d * 2 ^ e') HD) as Hmod.
  destruct (Z_lt_le_dec 2045 e') as [Hbig|Hsmall].
  { (* the exponent alone is too large *)
    assert (2 ^ 2046 <= 2 ^ e') by (apply Z.pow_le_mono_r; lia).
    specialize (Hq52 ltac:(lia)).
    assert (2 ^ 52 * (d * 2 ^ 2046) <= n * 2 ^ 1074) by nia.
    destruct (_ =? _); intros [= <- <-]; split; lia. }
  destruct (Z_lt_le_dec e' 2045) as [Hlow|Hhigh].
  { (* even a mantissa of [2^53] stays finite *)
    assert (2 ^ e' <= 2 ^ 2044) by (apply Z.pow_le_mono_r; lia).
    assert (n * 2 ^ 1074 < 2 ^ 53 * (d * 2 ^ 2044)) by nia.
    destruct (_ =? _); intros [= <- <-]; split; lia. }
  (* the largest exponent: the mantissa decides *)
  assert (e' = 2045) as Hexp by lia. rewrite Hexp in *. clear Hsmall Hhigh Hexp.
  set (D := d * 2 ^ 2045) in *. set (N := n * 2 ^ 1074) in *.
  assert (Hthr : (2 ^ 1024 - 2 ^ 970) * d <= n <-> (2 ^ 54 - 1) * D <= 2 * N).
  { subst D N. lia. }
  rewrite Hthr.
  destruct (Z.eq_dec (N / D) (2 ^ 53 - 1)) as [Htop|Hbelow].
  - pose proof (round_half_even_up N D (2 ^ 53 - 1) HD eq_refl Htop) as Hup.
    replace (2 * (2 ^ 53 - 1) + 1) with (2 ^ 54 - 1) in Hup by reflexivity.
    replace (2 ^ 53 - 1 + 1) with (2 ^ 53) in Hup by reflexivity.
    destruct (Z.eqb_spec (round_half_even N D) (2 ^ 53)) as [Heq|Hne];
      intros [= <- <-].
    + split; [|lia]. intros _. by apply Hup.
    + split; [lia|]. intros Hge. apply Hup in Hge. done.
  - assert (round_half_even N D < 2 ^ 53) by lia.
    destruct (Z.eqb_spec (round_half_even N D) (2 ^ 53)) as [Heq|Hne]; [lia|].
    intros [= <- <-]. split; [lia|]. intros Hge. nia.
Qed.

(** No integer is closer to [n / d] than the rounded quotient. *)
Lemma round_half_even_nearest n d j :
  0 < d -> Z.abs (round_half_even n d * d - n) <= Z.abs (j * d - n).
Proof.
  intros Hd. unfold round_half_even.
  pose proof (Z.div_mod n d ltac:(lia)) as Hdiv.
  pose proof (Z.mod_pos_bound n d Hd) as Hmod.
  set (q := n / d) in *. set (r := n mod d) in *.
  assert (Hj : j <= q \/ q + 1 <= j) by lia.
  assert (Hjd : j <= q -> j * d <= q * d) by nia.
  assert (Hjd' : q + 1 <= j -> (q + 1) * d <= j * d) by nia.
  destruct (Z.compare_spec (2 * r) d) as [Heq|Hlt|Hgt];
    [destruct (Z.even q)|..]; lia.
Qed.

(** No float, whatever its exponent, is closer to [n / d] than the one
    [round_ratio] yields. *)
Lemma round_ratio_nearest n d m e mg eg :
  0 <= n -> 0 < d ->
  round_ratio n d = (m, e) ->
  Z.abs mg < 2 ^ 53 -> -1074 <= eg ->
  Z.abs (m * 2 ^ (e + 1074) * d - n * 2 ^ 1074)
    <= Z.abs (mg * 2 ^ (eg + 1074) * d - n * 2 ^ 1074).
Proof.
  intros Hn Hd Hround Hmg Heg.
  destruct (quotient_exp_bounds n d Hn Hd) as (He & [Hq0 Hq53] & Hq52).
  unfold round_ratio in Hround.
  set (e' := quotient_exp n d) in *.
  assert (Hpow : 0 < 2 ^ e') by (apply Z.pow_pos_nonneg; lia).
  assert (HD : 0 < d * 2 ^ e') by lia.
  set (N := n * 2 ^ 1074) in *. set (D := d * 2 ^ e') in *.
  assert (Hunits : m * 2 ^ (e + 1074) * d = round_half_even N D * D).
  { destruct (Z.eqb_spec (round_half_even N D) (2 ^ 53)) as [Heq|Hne];
      injection Hround as <- <-.
    - replace (e' + 1 - 1074 + 1074) with (Z.succ e') by lia.
      rewrite Z.pow_succ_r, Heq by done. subst D.
      change (2 ^ 53) with (2 * 2 ^ 52). ring.
    - replace (e' - 1074 + 1074) with e' by lia. subst D. ring. }
  rewrite Hunits.
  destruct (Z_le_gt_dec e' (eg + 1074)) as [Hcoarse|Hfine].
  - (* the other float lies on the grid of the rounding *)
    replace (mg * 2 ^ (eg + 1074) * d) with (mg * 2 ^ (eg + 1074 - e') * D).
    2:{ subst D. replace (eg + 1074) with (eg + 1074 - e' + e') at 2 by lia.
        rewrite Z.pow_add_r by lia. ring. }
    by apply round_half_even_nearest.
  - (* the other float lies below the binade of the quotient *)
    specialize (Hq52 ltac:(lia)).
    pose proof (Z.div_mod N D ltac:(lia)) as Hdiv.
    pose proof (Z.mod_pos_bound N D HD) as Hmod.
    assert (Hbase : 2 ^ 52 * D <= N) by nia.
    pose proof (round_half_even_nearest N D (2 ^ 52) HD) as Hnear.
    assert (Hpg : 0 < 2 ^ (eg + 1074)) by (apply Z.pow_pos_nonneg; lia).
    assert (Hstep : 2 * 2 ^ (eg + 1074) <= 2 ^ e').
    { rewrite <- Z.pow_succ_r by lia. apply Z.pow_le_mono_r; lia. }
    assert (Hbelow : mg * 2 ^ (eg + 1074) * d < 2 ^ 52 * D).
    { subst D. set (pg := 2 ^ (eg + 1074)) in *. set (p := 2 ^ e') in *.
      assert (mg * pg < 2 ^ 52 * p) by nia. nia. }
    lia.
Qed.

(** When another integer is as close to [n / d] as the rounded quotient,
    the rounded quotient is the even one of the two. *)
Lemma round_half_even_tie n d j :
  0 < d -> j <> round_half_even n d ->
  Z.abs (j * d - n) = Z.abs (round_half_even n d * d - n) ->
  Z.even (round_half_even n d) = true.
Proof.
  intros Hd. unfold round_half_even.
  pose proof (Z.div_mod n d ltac:(lia)) as Hdiv.
  pose proof (Z.mod_pos_bound n d Hd) as Hmod.
  set (q := n / d) in *. set (r := n mod d) in *.
  assert (Hj : j <= q - 1 \/ j = q \/ j = q + 1 \/ q + 2 <= j) by lia.
  assert (Hjd : j <= q - 1 -> j * d <= (q - 1) * d) by nia.
  assert (Hjd' : q + 2 <= j -> (q + 2) * d <= j * d) by nia.
  destruct (Z.compare_spec (2 * r) d) as [Heq|Hlt|Hgt].
  - destruct (Z.even q) eqn:Hq; [done|]. intros _ _.
    change (q + 1) with (Z.succ q). by rewrite Z.even_succ, <- Z.negb_even, Hq.
  - intros Hne Hdist. exfalso.
    destruct Hj as [Hj|[->|[->|Hj]]]; [specialize (Hjd Hj)|done| |specialize (Hjd' Hj)]; lia.
  - intros Hne Hdist. exfalso.
    destruct Hj as [Hj|[->|[->|Hj]]]; [specialize (Hjd Hj)| |done|specialize (Hjd' Hj)]; lia.
Qed.

(** Ties between two floats go to the even mantissa. *)
Lemma round_ratio_tie n d m e mg eg :
  0 <= n -> 0 < d ->
  round_ratio n d = (m, e) ->
  Z.abs mg < 2 ^ 53 -> -1074 <= eg ->
  mg * 2 ^ (eg + 1074) <> m * 2 ^ (e + 1074) ->
  Z.abs (mg * 2 ^ (eg + 1074) * d - n * 2 ^ 1074)
    = Z.abs (m * 2 ^ (e + 1074) * d - n * 2 ^ 1074) ->
  Z.even m = true.
Proof.
  intros Hn Hd Hround Hmg Heg.
  destruct (quotient_exp_bounds n d Hn Hd) as (He & [Hq0 Hq53] & Hq52).
  unfold round_ratio in Hround.
  set (e' := quotient_exp n d) in *.
  assert (Hpow : 0 < 2 ^ e') by (apply Z.pow_pos_nonneg; lia).
  assert (HD : 0 < d * 2 ^ e') by lia.
  set (N := n * 2 ^ 1074) in *. set (D := d * 2 ^ e') in *.
  assert (Hunits : m * 2 ^ (e + 1074) = round_half_even N D * 2 ^ e' /\
                   (Z.even (round_half_even N D) = true -> Z.even m = true)).
  { destruct (Z.eqb_spec (round_half_even N D) (2 ^ 53)) as [Heq|Hne];
      injection Hround as <- <-.
    - replace (e' + 1 - 1074 + 1074) with (Z.succ e') by lia.
      rewrite Z.pow_succ_r, Heq by done. split; [|done].
      change (2 ^ 53) with (2 * 2 ^ 52). ring.
    - replace (e' - 1074 + 1074) with e' by lia. done. }
  destruct Hunits as [Hunits Heven]. rewrite Hunits.
  replace (round_half_even N D * 2 ^ e' * d) with (round_half_even N D * D)
    by (subst D; ring).
  intros Hother Hdist. apply Heven.
  destruct (Z_le_gt_dec e' (eg + 1074)) as [Hcoarse|Hfine].
  - assert (Hgrid : 2 ^ (eg + 1074) = 2 ^ (eg + 1074 - e') * 2 ^ e').
    { rewrite <- Z.pow_add_r by lia. f_equal. lia. }
    apply (round_half_even_tie N D (mg * 2 ^ (eg + 1074 - e')) HD).
    + intros Heq. apply Hother. rewrite Hgrid, <- Heq. ring.
    + rewrite <- Hdist, Hgrid. f_equal. subst D. ring.
  - exfalso. specialize (Hq52 ltac:(lia)).
    pose proof (Z.div_mod N D ltac:(lia)) as Hdiv.
    pose proof (Z.mod_pos_bound N D HD) as Hmod.
    assert (Hbase : 2 ^ 52 * D <= N) by nia.
    pose proof (round_half_even_nearest N D (2 ^ 52) HD) as Hnear.
    assert (Hpg : 0 < 2 ^ (eg + 1074)) by (apply Z.pow_pos_nonneg; lia).
    assert (Hstep : 2 * 2 ^ (eg + 1074) <= 2 ^ e').
    { rewrite <- Z.pow_succ_r by lia. apply Z.pow_le_mono_r; lia. }
    assert (Hbelow : mg * 2 ^ (eg + 1074) * d < 2 ^ 52 * D).
    { subst D. set (pg := 2 ^ (eg + 1074)) in *. set (p := 2 ^ e') in *.
      assert (mg * pg < 2 ^ 52 * p) by nia. nia. }
    lia.
Qed.

(** True division by a positive integer: while the magnitude of the
    quotient stays below [2^1024 - 2^970] the result is a canonical float,
    no float is closer to the quotient, and of two closest floats the one
    with the even mantissa is taken; from that magnitude on
    [OverflowError] is raised. *)
Lemma int_truediv_spec a b :
  0 < b ->
  (Z.abs a < (2 ^ 1024 - 2 ^ 970) * b ->
     exists f,
       int_truediv a b = Ok f /\
       canonical f /\
       (forall g, representable g -> distance f a b <= distance g a b) /\
       (forall g, representable g -> float_units g <> float_units f ->
                  distance g a b = distance f a b -> Z.even (mant f) = true)) /\
  ((2 ^ 1024 - 2 ^ 970) * b <= Z.abs a -> int_truediv a b = Raise overflow_error).
Proof.
  intros Hb. unfold int_truediv.
  rewrite (proj2 (Z.eqb_neq b 0)) by lia.
  rewrite (Z.abs_eq b) by lia.
  destruct (round_ratio (Z.abs a) b) as [m e] eqn:Hround.
  pose proof (round_ratio_spec _ _ _ _ (Z.abs_nonneg a) Hb Hround) as [Hcanon Herr].
  pose proof (round_ratio_overflow _ _ _ _ (Z.abs_nonneg a) Hb Hround) as Hover.
  pose proof (fun g => round_ratio_nearest _ _ _ _ (mant g) (expo g)
                         (Z.abs_nonneg a) Hb Hround) as Hnear.
  pose proof (fun mg eg => round_ratio_tie _ _ _ _ mg eg (Z.abs_nonneg a) Hb Hround)
    as Htie.
  split.
  2:{ intros Hlarge. apply Hover in Hlarge. by rewrite (proj2 (Z.ltb_lt 971 e)). }
  intros Hsmall. destruct (Z.ltb_spec 971 e) as [Hlt|Hle]; [lia|].
  eexists. split; [done|]. unfold canonical, representable, distance, float_units.
  simpl. rewrite (Z.sgn_pos b) by done.
  assert (Hp : 0 < 2 ^ (e + 1074)) by (apply Z.pow_pos_nonneg; lia).
  set (p := 2 ^ (e + 1074)) in *. set (P := 2 ^ 1074) in *.
  destruct (Z.sgn_spec a) as [[Ha ->]|[[Ha ->]|[Ha ->]]].
  - rewrite (Z.abs_eq a) in * by lia.
    replace (1 * 1 * m) with m by ring.
    split; [rewrite (Z.abs_eq m) by lia; lia|]. split.
    + intros [mg eg] [Hmg Heg]. simpl in *.
      apply (Hnear (Float mg eg)); simpl; [done|lia].
    + intros [mg eg] [Hmg Heg]. simpl in *. intros Hne Hdist.
      apply (Htie mg eg); [done|lia|done|done].
  - subst a. simpl in Herr. simpl.
    assert (Hm : m = 0).
    { assert (0 <= m) by lia. assert (0 < p * b) by lia.
      rewrite Z.sub_0_r, (Z.abs_eq (m * p * b)) in Herr by nia. nia. }
    subst m. split; [right; lia|]. split; [|done].
    intros g _. lia.
  - rewrite (Z.abs_neq a) in * by lia.
    replace (-1 * 1 * m) with (- m) by ring.
    split; [rewrite Z.abs_opp, (Z.abs_eq m) by lia; lia|]. split.
    + intros [mg eg] [Hmg Heg]. simpl in *.
      specialize (Hnear (Float (- mg) eg)). simpl in Hnear.
      rewrite Z.abs_opp in Hnear. specialize (Hnear Hmg ltac:(lia)).
      set (pg := 2 ^ (eg + 1074)) in *. lia.
    + intros [mg eg] [Hmg Heg]. simpl in *. intros Hne Hdist.
      rewrite Z.even_opp. apply (Htie (- mg) eg).
      * by rewrite Z.abs_opp.
      * lia.
      * set (pg := 2 ^ (eg + 1074)) in *. lia.
      * set (pg := 2 ^ (eg + 1074)) in *. lia.
Qed.

(** *** Agreement with the IEEE 754 division of the Standard Library

    On operands that are floats themselves, true division is the binary64
    division [SFdiv 53 1024], with [OverflowError] in place of an
    infinite result. *)

Example int_truediv_one_third :
  int_truediv 1 3 = Ok (Float 6004799503160661 (-54)) /\
  SFdiv 53 1024 (S754_finite false 1 0) (S754_finite false 3 0)
    = S754_finite false 6004799503160661 (-54).
Proof. split; by vm_compute. Qed.

Example int_truediv_negative :
  int_truediv (-7) 2 = Ok (Float (-7881299347898368) (-51)) /\
  SFdiv 53 1024 (S754_finite true 7 0) (S754_finite false 2 0)
    = S754_finite true 7881299347898368 (-51).
Proof. split; by vm_compute. Qed.

Example int_truediv_subnormal_tie :
  int_truediv 3 (2 ^ 1075) = Ok (Float 2 (-1074)) /\
  SFdiv 53 1024 (S754_finite false 3 0) (S754_finite false 1 1075)
    = S754_finite false 2 (-1074).
Proof. split; by vm_compute. Qed.

Example int_truediv_largest :
  int_truediv (2 ^ 1024 - 2 ^ 970 - 1) 1 = Ok (Float (2 ^ 53 - 1) 971) /\
  SFdiv 53 1024 (S754_finite false (Z.to_pos (2 ^ 53 - 1)) 971) (S754_finite false 1 0)
    = S754_finite false (Z.to_pos (2 ^ 53 - 1)) 971.
Proof. split; by vm_compute. Qed.

Example int_truediv_overflow :
  int_truediv (2 ^ 1023) (-1) = Ok (Float (- 2 ^ 52) 971) /\
  int_truediv (2 ^ 1024) (-1) = Raise overflow_error /\
  SFdiv 53 1024 (S754_finite false 1 971) (S754_finite false (Z.to_pos (2 ^ 52)) (-105))
    = S754_infinity false.
Proof. repeat split; by vm_compute. Qed.

(** ** calculate_average and find_max *)

Lemma len_pos {A} (x : A) (l : list A) : 0 < len (x :: l).
Proof. unfold len. simpl. lia. Qed.

(** C5, amended.  For a non-empty list whose mean [sum / len] is smaller
    in magnitude than [2^1024 - 2^970], [calculate_average] returns the
    mean as a floating-point value: a canonical binary64 float such that
    no binary64 float is closer to [sum / len], the one with the even
    mantissa when two floats are equally close.  For [[2; 4; 6]] the
    result is the float 4.0. *)
Theorem calculate_average_rounded_mean numbers :
  numbers <> [] ->
  Z.abs (sum numbers) < (2 ^ 1024 - 2 ^ 970) * len numbers ->
  (exists f,
     calculate_average numbers = Ok f /\
     canonical f /\
     (forall g, representable g ->
        distance f (sum numbers) (len numbers) <= distance g (sum numbers) (len numbers)) /\
     (forall g, representable g -> float_units g <> float_units f ->
        distance g (sum numbers) (len numbers) = distance f (sum numbers) (len numbers) ->
        Z.even (mant f) = true)) /\
  (exists four,
     calculate_average [2; 4; 6] = Ok four /\
     float_units four = 4 * 2 ^ 1074).
Proof.
  intros Hne Hsmall. split.
  - destruct numbers as [|x rest]; [done|].
    unfold calculate_average.
    by apply (int_truediv_spec (sum (x :: rest)) (len (x :: rest)) (len_pos x rest)).
  - eexists. split; [by vm_compute|]. by vm_compute.
Qed.

Lemma calculate_average_rounded_mean_witness :
  (exists f,
     calculate_average [1; 2] = Ok f /\
     canonical f /\
     (forall g, representable g ->
        distance f (sum [1; 2]) (len [1; 2]) <= distance g (sum [1; 2]) (len [1; 2])) /\
     (forall g, representable g -> float_units g <> float_units f ->
        distance g (sum [1; 2]) (len [1; 2]) = distance f (sum [1; 2]) (len [1; 2]) ->
        Z.even (mant f) = true)) /\
  (exists four,
     calculate_average [2; 4; 6] = Ok four /\
     float_units four = 4 * 2 ^ 1074).
Proof.
  apply (calculate_average_rounded_mean [1; 2]); [discriminate|].
  vm_compute. reflexivity.
Defined.

(** C5 as stated fails on integers beyond the range of floats: the list
    is not empty and no value is returned. *)
Lemma calculate_average_no_value :
  [2 ^ 1023; 3 * 2 ^ 1023] <> [] /\
  calculate_average [2 ^ 1023; 3 * 2 ^ 1023] = Raise overflow_error /\
  ~ (exists f, calculate_average [2 ^ 1023; 3 * 2 ^ 1023] = Ok f).
Proof.
  assert (H : calculate_average [2 ^ 1023; 3 * 2 ^ 1023] = Raise overflow_error)
    by (by vm_compute).
  split; [discriminate|]. split; [exact H|].
  intros [f Hf]. rewrite H in Hf. discriminate.
Qed.

(** C4, amended.  On the empty list both functions raise the empty-input
    error.  On a non-empty list [find_max] always returns, and
    [calculate_average] returns unless the mean reaches [2^1024 - 2^970]
    in magnitude, in which case the division raises [OverflowError]. *)
Theorem failure_modes numbers :
  match numbers with
  | [] =>
      calculate_average numbers = Raise empty_input /\
      find_max numbers = Raise empty_input
  | _ :: _ =>
      (exists m, find_max numbers = Ok m) /\
      ((Z.abs (sum numbers) < (2 ^ 1024 - 2 ^ 970) * len numbers /\
        exists f, calculate_average numbers = Ok f) \/
       ((2 ^ 1024 - 2 ^ 970) * len numbers <= Z.abs (sum numbers) /\
        calculate_average numbers = Raise overflow_error))
  end.
Proof.
  destruct numbers as [|x rest]; [done|]. split; [by eexists|].
  destruct (int_truediv_spec (sum (x :: rest)) (len (x :: rest)) (len_pos x rest))
    as [Hok Hover].
  destruct (Z_lt_le_dec (Z.abs (sum (x :: rest)))
              ((2 ^ 1024 - 2 ^ 970) * len (x :: rest))) as [Hsmall|Hlarge].
  - left. split; [done|]. destruct (Hok Hsmall) as (f & Hf & _). by exists f.
  - right. split; [done|]. by apply Hover.
Qed.

(** C4 as stated fails: a non-empty list can make [calculate_average]
    fail, with an error that is not the empty-input error. *)
Lemma calculate_average_overflow :
  [2 ^ 1024] <> [] /\
  calculate_average [2 ^ 1024] = Raise overflow_error /\
  overflow_error <> empty_input.
Proof. split; [discriminate|]. split; [by vm_compute|discriminate]. Qed.

(** ** Tables: auxiliary facts *)

Lemma get_loc_Some column cols :
  column ∈ cols -> exists i, get_loc column cols = Some i.
Proof.
  induction cols as [|c cols IH]; intros Hin.
  - by apply elem_of_nil in Hin.
  - simpl. destruct (String.eqb c column) eqn:Heq; [by eexists|].
    apply elem_of_cons in Hin as [->|Hin].
    + by rewrite String.eqb_refl in Heq.
    + destruct (IH Hin) as [i ->]. by eexists.
Qed.

Lemma get_loc_None column cols :
  column ∉ cols -> get_loc column cols = None.
Proof.
  induction cols as [|c cols IH]; intros Hnin; [done|].
  simpl. apply not_elem_of_cons in Hnin as [Hne Hnin].
  destruct (String.eqb c column) eqn:Heq.
  - apply String.eqb_eq in Heq. congruence.
  - by rewrite IH.
Qed.

Lemma distinct_NoDup cols : distinct cols = true <-> NoDup cols.
Proof.
  induction cols as [|c cols IH]; simpl.
  - split; [constructor|done].
  - rewrite andb_true_iff, negb_true_iff, NoDup_cons, IH.
    assert (Hin : existsb (String.eqb c) cols = false <-> c ∉ cols).
    { rewrite <- not_true_iff_false, existsb_exists. split.
      - intros Hnone Hc. apply Hnone. exists c.
        split; [by apply list_elem_of_In|apply String.eqb_refl].
      - intros Hnin (c' & Hc' & Heq). apply String.eqb_eq in Heq as ->.
        by apply Hnin, list_elem_of_In. }
    by rewrite Hin.
Qed.

(** The labels of a table are distinct. *)
Lemma labels_NoDup df : NoDup (columns df).
Proof. apply distinct_NoDup, distinct_labels. Qed.

Lemma has_column_true df column :
  column ∈ columns df -> has_column df column = true.
Proof. intros. unfold has_column. by apply bool_decide_eq_true. Qed.

Lemma has_column_false df column :
  column ∉ columns df -> has_column df column = false.
Proof. intros. unfold has_column. by apply bool_decide_eq_false. Qed.

Lemma cell_eq_str_true value c : cell_eq_str value c = true <-> c = CStr value.
Proof.
  destruct c; simpl; try (split; [discriminate|congruence]).
  rewrite String.eqb_eq. split; congruence.
Qed.

(** Selecting by the mask of a test is filtering by the test. *)
Lemma select_mask {A} (p : A -> bool) (l : list A) :
  select l (p <$> l) = filter (fun x => p x = true) l.
Proof.
  induction l as [|x l IH]; [done|].
  rewrite fmap_cons, filter_cons. cbn [select]. destruct (p x) eqn:Hp.
  - rewrite decide_True by done. by rewrite IH.
  - rewrite decide_False by congruence. done.
Qed.

Lemma filter_matches i value (l : list row) :
  filter (fun r => cell_eq_str value (cell_at i r) = true) l
  = filter (fun r => cell_at i r = CStr value) l.
Proof. apply list_filter_iff. intros r. apply cell_eq_str_true. Qed.

(** What [filter_by_category] computes once the column is known. *)
Lemma filter_by_category_unfold df column value limit i :
  get_loc column (columns df) = Some i ->
  filter_by_category df column value limit =
    Ok (Frame (columns df) (distinct_labels df)
          (take (slice_stop limit
                   (length (filter (fun r => cell_at i r = CStr value) (rows df))))
             (filter (fun r => cell_at i r = CStr value) (rows df)))).
Proof.
  intros Hloc. unfold filter_by_category.
  assert (Hin : column ∈ columns df).
  { destruct (decide (column ∈ columns df)) as [|Hn]; [done|].
    apply get_loc_None in Hn. congruence. }
  rewrite has_column_true by done. simpl.
  unfold getitem. rewrite Hloc. simpl.
  unfold head, boolean_index, series_eq. simpl.
  rewrite <- list_fmap_compose.
  change (cell_eq_str value ∘ cell_at i) with (fun r => cell_eq_str value (cell_at i r)).
  rewrite select_mask, filter_matches. done.
Qed.

Lemma Forall_filter_holds {A} (P : A -> Prop) `{!forall x, Decision (P x)} (l : list A) :
  Forall P (filter P l).
Proof. apply Forall_forall. intros x Hx. by apply list_elem_of_filter in Hx as [? _]. Qed.

Lemma filter_none {A} (P : A -> Prop) `{!forall x, Decision (P x)} (l : list A) :
  Forall (fun x => ~ P x) l -> filter P l = [].
Proof.
  induction 1 as [|x l Hx _ IH]; [done|].
  rewrite filter_cons, decide_False by done. exact IH.
Qed.

Lemma filter_all {A} (P : A -> Prop) `{!forall x, Decision (P x)} (l : list A) :
  Forall P l -> filter P l = l.
Proof.
  induction 1 as [|x l Hx _ IH]; [done|].
  rewrite filter_cons, decide_True by done. by rewrite IH.
Qed.

Lemma slice_stop_nonneg n size : 0 <= n -> slice_stop n size = Z.to_nat n.
Proof. intros Hn. unfold slice_stop. by rewrite (proj2 (Z.leb_le 0 n)). Qed.

(** ** filter_by_category *)

(** C2, amended.  For a table with distinct column labels that has the
    column, [filter_by_category] returns a table (never an error) with
    the same columns whose rows all hold exactly [value] in that column,
    are a prefix of the matching rows of the input and hence appear in
    the original row order, and are none when no row matches.  For a
    limit that is not negative the rows are the first [limit] matching
    rows, so at most [limit] of them. *)
Theorem filter_by_category_rows df column value limit :
  NoDup (columns df) ->
  column ∈ columns df ->
  exists i out,
    get_loc column (columns df) = Some i /\
    filter_by_category df column value limit = Ok out /\
    columns out = columns df /\
    Forall (fun r => cell_at i r = CStr value) (rows out) /\
    rows out `prefix_of` filter (fun r => cell_at i r = CStr value) (rows df) /\
    rows out `sublist_of` rows df /\
    (Forall (fun r => cell_at i r <> CStr value) (rows df) -> rows out = []) /\
    (0 <= limit ->
       rows out = take (Z.to_nat limit)
                    (filter (fun r => cell_at i r = CStr value) (rows df)) /\
       len (rows out) <= limit).
Proof.
  intros _ Hin. destruct (get_loc_Some _ _ Hin) as [i Hloc].
  exists i. eexists. split; [exact Hloc|].
  split; [by apply filter_by_category_unfold|]. simpl.
  split; [done|].
  split; [apply Forall_take, Forall_filter_holds|].
  split; [apply prefix_take|].
  split.
  { etrans; [apply sublist_take|]. apply sublist_filter. }
  split.
  { intros Hnone. rewrite filter_none by done. by rewrite take_nil. }
  intros Hlim. rewrite slice_stop_nonneg by done. split; [done|].
  unfold len. rewrite length_take. lia.
Qed.

Lemma filter_by_category_rows_witness :
  exists i out,
    get_loc "species" (columns iris_sample) = Some i /\
    filter_by_category iris_sample "species" "setosa" 2 = Ok out /\
    columns out = columns iris_sample /\
    Forall (fun r => cell_at i r = CStr "setosa") (rows out) /\
    rows out `prefix_of`
      filter (fun r => cell_at i r = CStr "setosa") (rows iris_sample) /\
    rows out `sublist_of` rows iris_sample /\
    (Forall (fun r => cell_at i r <> CStr "setosa") (rows iris_sample) ->
       rows out = []) /\
    (0 <= 2 ->
       rows out = take (Z.to_nat 2)
                    (filter (fun r => cell_at i r = CStr "setosa") (rows iris_sample)) /\
       len (rows out) <= 2).
Proof.
  apply (filter_by_category_rows iris_sample "species" "setosa" 2).
  - apply (bool_decide_unpack (NoDup (columns iris_sample))). by vm_compute.
  - vm_compute. apply list_elem_of_further, list_elem_of_here.
Defined.

(** C2 as stated fails for a negative limit: [head(-1)] drops the last
    matching row and keeps the others, here two rows for the limit -1. *)
Lemma filter_by_category_negative_limit :
  exists out,
    filter_by_category iris_sample "species" "setosa" (-1) = Ok out /\
    len (rows out) = 2 /\
    ~ (len (rows out) <= -1).
Proof. eexists. split; [reflexivity|]. split; [reflexivity|]. vm_compute. congruence. Qed.

(** C8, amended.  For a table (its column labels are distinct) that has
    the column and a limit that is not negative, filtering the result of
    [filter_by_category] again with the same column, value and limit
    returns that result unchanged. *)
Theorem filter_by_category_idempotent df column value limit :
  column ∈ columns df ->
  0 <= limit ->
  exists out,
    filter_by_category df column value limit = Ok out /\
    filter_by_category out column value limit = Ok out.
Proof.
  intros Hin Hlim.
  destruct (get_loc_Some _ _ Hin) as [i Hloc].
  eexists. split; [by apply filter_by_category_unfold|].
  rewrite (filter_by_category_unfold _ _ _ _ i) by done. simpl.
  rewrite !slice_stop_nonneg by done.
  set (matching := filter _ (rows df)).
  rewrite (filter_all _ (take _ matching)).
  2:{ apply Forall_take, Forall_filter_holds. }
  by rewrite take_take, Nat.min_id.
Qed.

Lemma filter_by_category_idempotent_witness :
  exists out,
    filter_by_category iris_sample "species" "setosa" 2 = Ok out /\
    filter_by_category out "species" "setosa" 2 = Ok out.
Proof.
  apply (filter_by_category_idempotent iris_sample "species" "setosa" 2); [|lia].
  vm_compute. apply list_elem_of_further, list_elem_of_here.
Defined.

(** C8 as stated fails for a negative limit: each call with the limit -1
    drops one more row. *)
Lemma filter_by_category_not_idempotent :
  exists out out',
    filter_by_category iris_sample "species" "setosa" (-1) = Ok out /\
    filter_by_category out "species" "setosa" (-1) = Ok out' /\
    out' <> out.
Proof. do 2 eexists. split; [reflexivity|]. split; [reflexivity|]. discriminate. Qed.

(** ** load_data, calculate_column_mean, find_column_max *)

Section PandasProperties.

Variable read_csv : string -> result DataFrame.
Variable series_mean : Series -> result cell.
Variable series_max : Series -> result cell.

Lemma df_empty_no_rows df : rows df = [] -> df_empty df = true.
Proof. unfold df_empty. intros ->. by destruct (columns df). Qed.

(** Whatever is raised inside the [try] block of [load_data] reaches
    the caller wrapped by the handler of line 144. *)
Lemma load_data_raises_wrapped url :
  forall e, load_data read_csv url = Raise e ->
  exists inner, e = load_failure url inner.
Proof.
  intros e. unfold load_data, try_except, bind.
  destruct (read_csv url) as [df|inner].
  - destruct (df_empty df); [|discriminate].
    intros [= <-]. by eexists.
  - intros [= <-]. by eexists.
Qed.

(** C1.  When the reader succeeds with a table that has no rows, the
    empty-data error raised on line 141 sits inside the [try] block, is
    caught on line 143 and reaches the caller as a load failure that
    wraps its text: not the empty-data error itself, and the same
    exception that a failing reader with this text produces. *)
Theorem load_data_empty_table_wrapped url df :
  read_csv url = Ok df ->
  rows df = [] ->
  load_data read_csv url = Raise (load_failure url empty_data) /\
  load_failure url empty_data <> empty_data /\
  exn_str (load_failure url empty_data)
    = "Failed to load data from " +:+ url +:+ ": Loaded data is empty".
Proof.
  intros Hread Hrows. unfold load_data. rewrite Hread. simpl.
  rewrite df_empty_no_rows by done. simpl.
  split; [done|]. split; [|done]. unfold load_failure, empty_data. simpl.
  discriminate.
Qed.

(** C7.  For a table that lacks the column, [calculate_column_mean] and
    [find_column_max] raise the column-not-found error, whatever the
    table holds and whatever the aggregates would do. *)
Theorem column_not_found_first df column :
  column ∉ columns df ->
  calculate_column_mean series_mean df column = Raise (column_not_found column) /\
  find_column_max series_max df column = Raise (column_not_found column).
Proof.
  intros Hnin. unfold calculate_column_mean, find_column_max.
  by rewrite has_column_false.
Qed.

(** C10.  For a table with at least one row that has the column, the
    column taken out of the table is not empty, so the empty-column
    branch is skipped and both functions return what the aggregate
    returns on that column.  (A table's column labels are distinct,
    [distinct_labels].) *)
Theorem empty_column_unreachable df column :
  rows df <> [] ->
  column ∈ columns df ->
  exists s,
    getitem df column = Ok s /\
    length s = length (rows df) /\
    series_empty s = false /\
    calculate_column_mean series_mean df column = series_mean s /\
    find_column_max series_max df column = series_max s.
Proof.
  intros Hrows Hin. destruct (get_loc_Some _ _ Hin) as [i Hloc].
  exists (cell_at i <$> rows df).
  assert (Hget : getitem df column = Ok (cell_at i <$> rows df)).
  { unfold getitem. by rewrite Hloc. }
  assert (Hne : series_empty (cell_at i <$> rows df) = false).
  { destruct (rows df); [done|reflexivity]. }
  split; [done|]. split; [apply length_fmap|]. split; [done|].
  unfold calculate_column_mean, find_column_max.
  rewrite has_column_true, Hget by done. simpl. by rewrite Hne.
Qed.

End PandasProperties.

Lemma load_data_empty_table_wrapped_witness :
  load_data (fun _ => Ok header_only) "iris.csv" = Raise (load_failure "iris.csv" empty_data) /\
  load_failure "iris.csv" empty_data <> empty_data /\
  exn_str (load_failure "iris.csv" empty_data)
    = "Failed to load data from iris.csv: Loaded data is empty".
Proof.
  apply (load_data_empty_table_wrapped (fun _ => Ok header_only) "iris.csv" header_only);
    reflexivity.
Defined.

(** A failing reader whose message is the empty-data text gives the very
    same exception as the empty table does. *)
Example load_data_same_as_reader_failure :
  load_data (fun _ => Raise (Exn (OtherException "EmptyDataError") "Loaded data is empty"))
    "iris.csv"
  = load_data (fun _ => Ok header_only) "iris.csv".
Proof. reflexivity. Qed.

Lemma column_not_found_first_witness :
  calculate_column_mean first_value iris_sample "petal_width"
    = Raise (column_not_found "petal_width") /\
  find_column_max first_value iris_sample "petal_width"
    = Raise (column_not_found "petal_width").
Proof.
  apply (column_not_found_first first_value first_value iris_sample "petal_width").
  apply (bool_decide_unpack ("petal_width" ∉ columns iris_sample)). by vm_compute.
Defined.

Lemma empty_column_unreachable_witness :
  exists s,
    getitem iris_sample "species" = Ok s /\
    length s = length (rows iris_sample) /\
    series_empty s = false /\
    calculate_column_mean first_value iris_sample "species" = first_value s /\
    find_column_max first_value iris_sample "species" = first_value s.
Proof.
  apply (empty_column_unreachable first_value first_value iris_sample "species").
  - discriminate.
  - apply (bool_decide_unpack ("species" ∈ columns iris_sample)). by vm_compute.
Defined.

(** ** generate_numbers *)

Section RandomProperties.

Variable rng : Type.
Variable draw : rng -> Z * rng.

Lemma randint_in_range lower upper s :
  lower <= upper ->
  exists x s', randint rng draw lower upper s = (Ok x, s') /\ lower <= x <= upper.
Proof.
  intros Hle. unfold randint, randrange.
  rewrite (proj2 (Z.ltb_lt 0 (upper + 1 - lower))) by lia.
  unfold rbind, randbelow, rret. destruct (draw s) as [r s'].
  exists (lower + r mod (upper + 1 - lower)), s'. split; [done|].
  pose proof (Z.mod_pos_bound r (upper + 1 - lower)). lia.
Qed.

Lemma randint_empty_range lower upper s :
  upper < lower ->
  exists msg, randint rng draw lower upper s = (Raise (Exn ValueError msg), s).
Proof.
  intros Hlt. unfold randint, randrange.
  rewrite (proj2 (Z.ltb_ge 0 (upper + 1 - lower))) by lia.
  by eexists.
Qed.

Lemma comprehension_randint k lower upper s :
  lower <= upper ->
  exists l s',
    comprehension k (randint rng draw lower upper) s = (Ok l, s') /\
    length l = k /\
    Forall (fun x => lower <= x <= upper) l.
Proof.
  intros Hle. revert s. induction k as [|k IH]; intros s.
  - exists [], s. by repeat split.
  - destruct (randint_in_range lower upper s Hle) as (x & s1 & Hx & Hrange).
    destruct (IH s1) as (l & s2 & Hl & Hlen & Hall).
    exists (x :: l), s2. simpl. unfold rbind at 1. rewrite Hx.
    unfold rbind at 1. rewrite Hl. unfold rret.
    repeat split; [by rewrite <- Hlen|by constructor].
Qed.

(** With the bounds in the wrong order nothing is drawn for the count 0
    and the first draw raises [ValueError] for a positive count. *)
Lemma generate_numbers_empty_range count lower upper s :
  upper < lower ->
  (count <= 0 -> generate_numbers rng draw count lower upper s = (Ok [], s)) /\
  (0 < count ->
     exists msg,
       generate_numbers rng draw count lower upper s
         = (Raise (Exn ValueError msg), s)).
Proof.
  intros Hlt. unfold generate_numbers, range_len. split.
  - intros Hle. by replace (Z.to_nat count) with 0%nat by lia.
  - intros Hpos. destruct (Z.to_nat count) as [|k] eqn:Hk; [lia|].
    destruct (randint_empty_range lower upper s Hlt) as [msg Hmsg].
    exists msg. simpl. unfold rbind at 1. by rewrite Hmsg.
Qed.

(** C3, amended.  For a count that is not negative and bounds with
    [lower <= upper], [generate_numbers] returns exactly [count]
    integers, each of them in [[lower, upper]]. *)
Theorem generate_numbers_count_and_range count lower upper s :
  0 <= count ->
  lower <= upper ->
  exists l s',
    generate_numbers rng draw count lower upper s = (Ok l, s') /\
    len l = count /\
    Forall (fun x => lower <= x <= upper) l.
Proof.
  intros Hcount Hle. unfold generate_numbers, range_len.
  destruct (comprehension_randint (Z.to_nat count) lower upper s Hle)
    as (l & s' & Hl & Hlen & Hall).
  exists l, s'. split; [done|]. split; [|done]. unfold len. lia.
Qed.

(** C9.  For a negative count [generate_numbers] returns the empty list
    and leaves the generator untouched, for any bounds. *)
Theorem generate_numbers_negative_count count lower upper s :
  count < 0 ->
  generate_numbers rng draw count lower upper s = (Ok [], s).
Proof.
  intros Hneg. unfold generate_numbers, range_len.
  by replace (Z.to_nat count) with 0%nat by lia.
Qed.

End RandomProperties.

Lemma generate_numbers_count_and_range_witness :
  exists l s',
    generate_numbers Z counter_draw 5 1 100 0 = (Ok l, s') /\
    len l = 5 /\
    Forall (fun x => 1 <= x <= 100) l.
Proof. apply (generate_numbers_count_and_range Z counter_draw 5 1 100 0); lia. Defined.

(** C3 as stated fails when the bounds are in the wrong order: for the
    count 1 and the bounds 5 and 1 no list is returned. *)
Lemma generate_numbers_empty_range_raises :
  0 <= 1 /\
  generate_numbers Z counter_draw 1 5 1 0
    = (Raise (Exn ValueError "empty range for randrange() (5, 2, -3)"), 0) /\
  ~ (exists l s',
       generate_numbers Z counter_draw 1 5 1 0 = (Ok l, s') /\
       len l = 1 /\
       Forall (fun x => 5 <= x <= 1) l).
Proof.
  split; [lia|]. split; [reflexivity|].
  intros (l & s' & Hl & _). discriminate Hl.
Qed.

Lemma generate_numbers_negative_count_witness :
  -3 < 0 /\ generate_numbers Z counter_draw (-3) 5 1 0 = (Ok [], 0).
Proof.
  split; [lia|]. apply (generate_numbers_negative_count Z counter_draw (-3) 5 1 0). lia.
Defined.

(** ** find_max *)

Lemma max_from_spec x rest :
  max_from x rest ∈ x :: rest /\
  x <= max_from x rest /\
  Forall (fun y => y <= max_from x rest) rest.
Proof.
  unfold max_from. revert x. induction rest as [|y rest IH]; intros x; simpl.
  - split; [apply list_elem_of_here|]. split; [lia|constructor].
  - destruct (IH (Z.max x y)) as (Hin & Hge & Hall).
    split.
    { apply elem_of_cons in Hin as [Heq|Hin].
      - rewrite Heq. destruct (Z.max_spec x y) as [[_ ->]|[_ ->]].
        + apply list_elem_of_further, list_elem_of_here.
        + apply list_elem_of_here.
      - by do 2 apply list_elem_of_further. }
    split; [lia|]. constructor; [lia|done].
Qed.

(** C6.  For a non-empty list [find_max] returns an element of the list
    that is greater than or equal to every element; for [[2; 4; 6]] it
    returns 6. *)
Theorem find_max_is_largest numbers :
  numbers <> [] ->
  exists m,
    find_max numbers = Ok m /\
    m ∈ numbers /\
    Forall (fun x => x <= m) numbers /\
    find_max [2; 4; 6] = Ok 6.
Proof.
  intros Hne. destruct numbers as [|x rest]; [done|].
  exists (max_from x rest). simpl.
  destruct (max_from_spec x rest) as (Hin & Hge & Hall).
  repeat split; [done|by constructor].
Qed.

Lemma find_max_is_largest_witness :
  exists m,
    find_max [3; 9; 4] = Ok m /\
    m ∈ [3; 9; 4] /\
    Forall (fun x => x <= m) [3; 9; 4] /\
    find_max [2; 4; 6] = Ok 6.
Proof. apply (find_max_is_largest [3; 9; 4]). discriminate. Defined.

(** * Further properties *)

(** ** Sums and maxima *)

Lemma foldl_add_shift (a : Z) (l : list Z) : foldl Z.add a l = a + foldl Z.add 0 l.
Proof.
  revert a. induction l as [|x l IH]; intros a; simpl; [lia|].
  rewrite (IH (a + x)), (IH (0 + x)). lia.
Qed.

Lemma sum_cons x l : sum (x :: l) = x + sum l.
Proof. unfold sum. simpl. apply foldl_add_shift. Qed.

Lemma sum_permutation l1 l2 : l1 ≡ₚ l2 -> sum l1 = sum l2.
Proof.
  induction 1 as [|x l1 l2 _ IH|x y l|l1 l2 l3 _ IH1 _ IH2];
    rewrite ?sum_cons; [done|by rewrite IH|lia|congruence].
Qed.

Lemma sum_fmap_opp l : sum (Z.opp <$> l) = - sum l.
Proof.
  induction l as [|x l IH]; [done|].
  rewrite fmap_cons, !sum_cons, IH. lia.
Qed.

Lemma sum_bounds lo hi l :
  Forall (fun x => lo <= x <= hi) l -> lo * len l <= sum l <= hi * len l.
Proof.
  unfold len. induction 1 as [|x l Hx _ IH]; [unfold sum; simpl; lia|].
  rewrite sum_cons. simpl length. rewrite Nat2Z.inj_succ. lia.
Qed.

(** A result of [find_max] is characterised by being an element and an
    upper bound of the list. *)
Lemma find_max_iff numbers m :
  find_max numbers = Ok m <-> m ∈ numbers /\ Forall (fun x => x <= m) numbers.
Proof.
  destruct numbers as [|x rest]; simpl.
  - split; [discriminate|]. intros [Hin _]. by apply elem_of_nil in Hin.
  - destruct (max_from_spec x rest) as (Hin & Hge & Hall). split.
    + intros [= <-]. split; [done|by constructor].
    + intros [Hm Hub]. f_equal.
      rewrite Forall_forall in Hub. specialize (Hub _ Hin).
      assert (Hup : Forall (fun y => y <= max_from x rest) (x :: rest)) by by constructor.
      rewrite Forall_forall in Hup. specialize (Hup _ Hm). lia.
Qed.

Lemma max_loop_fold acc numbers : max_loop acc numbers = foldl Z.max acc numbers.
Proof.
  unfold max_loop. revert acc. induction numbers as [|y rest IH]; intros acc; [done|].
  simpl. rewrite IH. f_equal. destruct (Z.gtb_spec y acc); lia.
Qed.

Lemma max_loop_max_from x rest : max_loop x (x :: rest) = max_from x rest.
Proof. rewrite max_loop_fold. unfold max_from. simpl. by rewrite Z.max_id. Qed.

(** ** find_max and calculate_average: order, bounds, exact means *)

(** X1.  [find_max] does not depend on the order of the numbers: two
    lists with the same elements, counted with repetition, give the same
    result (the same maximum, or the same error when both are empty). *)
Theorem find_max_permutation numbers numbers' :
  numbers ≡ₚ numbers' -> find_max numbers = find_max numbers'.
Proof.
  intros Hperm. destruct (find_max numbers) as [m|e] eqn:Hmax.
  - symmetry. apply find_max_iff. apply find_max_iff in Hmax as [Hin Hall].
    by rewrite <- Hperm.
  - destruct numbers as [|x rest]; [|discriminate].
    apply Permutation_nil_l in Hperm. subst numbers'. by rewrite <- Hmax.
Qed.

Lemma find_max_permutation_witness : find_max [3; 9; 4] = find_max [9; 4; 3].
Proof.
  apply (find_max_permutation [3; 9; 4] [9; 4; 3]).
  apply (bool_decide_unpack ([3; 9; 4] ≡ₚ [9; 4; 3])). by vm_compute.
Defined.

(** X2.  The maximum of two lists put together is the larger of the two
    maxima. *)
Theorem find_max_app numbers numbers' m m' :
  find_max numbers = Ok m ->
  find_max numbers' = Ok m' ->
  find_max (numbers ++ numbers') = Ok (Z.max m m').
Proof.
  rewrite !find_max_iff. intros [Hin Hall] [Hin' Hall']. split.
  - apply elem_of_app. destruct (Z.max_spec m m') as [[_ ->]|[_ ->]]; auto.
  - apply Forall_app. split.
    + eapply Forall_impl; [exact Hall|]. simpl. lia.
    + eapply Forall_impl; [exact Hall'|]. simpl. lia.
Qed.

Lemma find_max_app_witness : find_max ([3; 9] ++ [4; 12; 5]) = Ok (Z.max 9 12).
Proof. apply (find_max_app [3; 9] [4; 12; 5] 9 12); reflexivity. Defined.

(** X3.  [calculate_average] does not depend on the order of the numbers
    either. *)
Theorem calculate_average_permutation numbers numbers' :
  numbers ≡ₚ numbers' -> calculate_average numbers = calculate_average numbers'.
Proof.
  intros Hperm.
  pose proof (sum_permutation _ _ Hperm) as Hsum.
  pose proof (Permutation_length Hperm) as Hlen.
  destruct numbers as [|x rest], numbers' as [|x' rest']; try done.
  unfold calculate_average, len. by rewrite Hsum, Hlen.
Qed.

Lemma calculate_average_permutation_witness :
  calculate_average [3; 9; 4] = calculate_average [9; 4; 3].
Proof.
  apply (calculate_average_permutation [3; 9; 4] [9; 4; 3]).
  apply (bool_decide_unpack ([3; 9; 4] ≡ₚ [9; 4; 3])). by vm_compute.
Defined.

Lemma pow_exp_bounds e : -1074 <= e <= 971 -> 0 < 2 ^ (e + 1074) <= 2 ^ 2045.
Proof.
  intros He. split; [apply Z.pow_pos_nonneg; lia|apply Z.pow_le_mono_r; lia].
Qed.

(** A quotient between two integers of less than 54 bits is rounded to
    a float between them. *)
Lemma int_truediv_between lo hi a b :
  0 < b ->
  - 2 ^ 53 < lo -> hi < 2 ^ 53 ->
  lo * b <= a <= hi * b ->
  exists f,
    int_truediv a b = Ok f /\
    lo * 2 ^ 1074 <= float_units f <= hi * 2 ^ 1074.
Proof.
  intros Hb Hlo Hhi Hab.
  assert (Hlohi : lo <= hi) by nia.
  destruct (int_truediv_spec a b Hb) as [Hok _].
  destruct Hok as (f & Hf & _ & Hnear & _).
  { assert (Z.abs a < 2 ^ 53 * b) by nia. lia. }
  exists f. split; [exact Hf|].
  assert (Hnear_lo : distance f a b <= distance (Float lo 0) a b).
  { apply Hnear. unfold representable. simpl. lia. }
  assert (Hnear_hi : distance f a b <= distance (Float hi 0) a b).
  { apply Hnear. unfold representable. simpl. lia. }
  unfold distance in Hnear_lo, Hnear_hi.
  change (float_units (Float lo 0)) with (lo * 2 ^ 1074) in Hnear_lo.
  change (float_units (Float hi 0)) with (hi * 2 ^ 1074) in Hnear_hi.
  set (u := float_units f) in *.
  assert (HP : 0 < 2 ^ 1074) by done.
  set (P := 2 ^ 1074) in *.
  assert (lo * P * b <= a * P <= hi * P * b) by nia.
  split.
  - destruct (Z_lt_le_dec u (lo * P)) as [Hbelow|]; [|done].
    assert (u * b < lo * P * b) by nia. lia.
  - destruct (Z_lt_le_dec (hi * P) u) as [Habove|]; [|done].
    assert (hi * P * b < u * b) by nia. lia.
Qed.

(** X4.  The average of numbers that all lie between two bounds of less
    than 54 bits lies between the bounds as well: the division does not
    overflow and rounding never carries the mean past a bound. *)
Theorem calculate_average_between lo hi numbers :
  numbers <> [] ->
  - 2 ^ 53 < lo -> hi < 2 ^ 53 ->
  Forall (fun x => lo <= x <= hi) numbers ->
  exists f,
    calculate_average numbers = Ok f /\
    lo * 2 ^ 1074 <= float_units f <= hi * 2 ^ 1074.
Proof.
  intros Hne Hlo Hhi Hall.
  pose proof (sum_bounds lo hi numbers Hall) as Hsum.
  destruct numbers as [|x rest]; [done|].
  unfold calculate_average.
  apply int_truediv_between; [apply len_pos|done|done|lia].
Qed.

Lemma calculate_average_between_witness :
  exists f,
    calculate_average [3; 9; 4] = Ok f /\
    1 * 2 ^ 1074 <= float_units f <= 100 * 2 ^ 1074.
Proof.
  apply (calculate_average_between 1 100 [3; 9; 4]); [discriminate|lia|lia|].
  repeat constructor; lia.
Defined.

(** X5.  When the mean of a non-empty list is itself a float, this float
    is the result: nothing is lost to rounding.  (The means of
    [[2; 4; 6]] and of [[1; 2]] are such.) *)
Theorem calculate_average_exact numbers g :
  numbers <> [] ->
  representable g ->
  float_units g * len numbers = sum numbers * 2 ^ 1074 ->
  exists f,
    calculate_average numbers = Ok f /\
    float_units f = float_units g.
Proof.
  intros Hne [Hmant Hexp] Hmean.
  destruct numbers as [|x rest]; [done|].
  pose proof (len_pos x rest) as Hlen.
  set (n := len (x :: rest)) in *. set (s := sum (x :: rest)) in *.
  destruct (int_truediv_spec s n Hlen) as [Hok _].
  destruct Hok as (f & Hf & _ & Hnear & _).
  { unfold float_units in Hmean.
    destruct (pow_exp_bounds (expo g) Hexp) as [Hp0 Hp].
    set (p := 2 ^ (expo g + 1074)) in *.
    assert (Z.abs (mant g) * p <= (2 ^ 53 - 1) * 2 ^ 2045) by nia.
    assert (Z.abs s * 2 ^ 1074 = Z.abs (mant g) * p * n).
    { apply (f_equal Z.abs) in Hmean. rewrite !Z.abs_mul in Hmean.
      rewrite (Z.abs_eq p), (Z.abs_eq n), (Z.abs_eq (2 ^ 1074)) in Hmean by lia.
      lia. }
    assert (Z.abs s * 2 ^ 1074 <= (2 ^ 53 - 1) * 2 ^ 2045 * n) by nia.
    lia. }
  exists f. split; [exact Hf|].
  specialize (Hnear g (conj Hmant Hexp)). unfold distance in Hnear.
  rewrite Hmean, Z.sub_diag in Hnear. simpl in Hnear.
  assert (float_units f * n = float_units g * n) by lia.
  nia.
Qed.

Lemma calculate_average_exact_witness :
  exists f,
    calculate_average [1; 2] = Ok f /\
    float_units f = float_units (Float 3 (-1)).
Proof.
  apply (calculate_average_exact [1; 2] (Float 3 (-1))); [discriminate| |by vm_compute].
  unfold representable. simpl. lia.
Defined.

Lemma int_truediv_opp a b :
  int_truediv (- a) b =
    match int_truediv a b with
    | Ok f => Ok (float_neg f)
    | Raise e => Raise e
    end.
Proof.
  unfold int_truediv. destruct (b =? 0); [done|].
  rewrite Z.abs_opp, Z.sgn_opp.
  destruct (round_ratio (Z.abs a) (Z.abs b)) as [m e].
  destruct (971 <? e); [done|].
  unfold float_neg. simpl. do 2 f_equal. ring.
Qed.

(** X6.  Changing the sign of every number changes the sign of the
    average and nothing else; the same lists overflow. *)
Theorem calculate_average_opp numbers :
  calculate_average (Z.opp <$> numbers) =
    match calculate_average numbers with
    | Ok f => Ok (float_neg f)
    | Raise e => Raise e
    end.
Proof.
  destruct numbers as [|x rest]; [done|].
  change (calculate_average (Z.opp <$> x :: rest))
    with (int_truediv (sum (Z.opp <$> x :: rest)) (len (Z.opp <$> x :: rest))).
  unfold len. rewrite sum_fmap_opp, length_fmap. apply int_truediv_opp.
Qed.

(** ** generate_numbers: draws and composition *)

Section RandomComposition.

Variable rng : Type.
Variable draw : rng -> Z * rng.

Lemma randint_state lower upper s :
  lower <= upper ->
  exists x, randint rng draw lower upper s = (Ok x, snd (draw s)).
Proof.
  intros Hle. unfold randint, randrange.
  rewrite (proj2 (Z.ltb_lt 0 (upper + 1 - lower))) by lia.
  unfold rbind, randbelow, rret. destruct (draw s) as [r s']. by eexists.
Qed.

Lemma comprehension_randint_state k lower upper s :
  lower <= upper ->
  snd (comprehension k (randint rng draw lower upper) s) = after_draws rng draw k s.
Proof.
  intros Hle. revert s. induction k as [|k IH]; intros s; [done|].
  destruct (randint_state lower upper s Hle) as [x Hx].
  simpl. unfold rbind at 1. rewrite Hx. unfold rbind at 1.
  rewrite <- IH. by destruct (comprehension k _ _) as [[l|e] s2].
Qed.

(** A comprehension over [a + b] iterations is one over [a] iterations
    followed, from the state it leaves, by one over [b] iterations. *)
Lemma comprehension_add {A} (a b : nat) (body : Rand rng A) s :
  comprehension (a + b) body s =
    match comprehension a body s with
    | (Ok l1, s1) =>
        match comprehension b body s1 with
        | (Ok l2, s2) => (Ok (l1 ++ l2), s2)
        | (Raise e, s2) => (Raise e, s2)
        end
    | (Raise e, s1) => (Raise e, s1)
    end.
Proof.
  revert s. induction a as [|a IH]; intros s.
  - simpl. unfold rret. by destruct (comprehension b body s) as [[l2|e] s2].
  - simpl. unfold rbind, rret. destruct (body s) as [[x|e] s1]; [|done].
    rewrite IH.
    destruct (comprehension a body s1) as [[l1|e] s2]; [|done].
    by destruct (comprehension b body s2) as [[l2|e] s3].
Qed.

(** X8.  Generating [a + b] numbers is generating [a] numbers and then,
    with the generator as it was left, [b] more: the first call's list
    followed by the second's, or the first error met. *)
Theorem generate_numbers_add a b lower upper s :
  0 <= a -> 0 <= b ->
  generate_numbers rng draw (a + b) lower upper s =
    match generate_numbers rng draw a lower upper s with
    | (Ok l1, s1) =>
        match generate_numbers rng draw b lower upper s1 with
        | (Ok l2, s2) => (Ok (l1 ++ l2), s2)
        | (Raise e, s2) => (Raise e, s2)
        end
    | (Raise e, s1) => (Raise e, s1)
    end.
Proof.
  intros Ha Hb. unfold generate_numbers, range_len.
  rewrite Z2Nat.inj_add by done. apply comprehension_add.
Qed.

(** X9.  With equal bounds every number is that bound. *)
Theorem generate_numbers_single_value count bound s :
  fst (generate_numbers rng draw count bound bound s)
    = Ok (replicate (Z.to_nat count) bound).
Proof.
  unfold generate_numbers, range_len. generalize (Z.to_nat count) as k.
  intros k. revert s. induction k as [|k IH]; intros s; [done|].
  simpl. unfold rbind at 1. unfold randint at 1, randrange.
  replace (bound + 1 - bound) with 1 by lia. simpl.
  unfold rbind at 1, randbelow, rret. destruct (draw s) as [r s'].
  rewrite Z.mod_1_r, Z.add_0_r. unfold rbind.
  specialize (IH s'). destruct (comprehension k _ s') as [[l|e] s2]; simpl in *; congruence.
Qed.

End RandomComposition.

Lemma generate_numbers_add_witness :
  generate_numbers Z counter_draw (2 + 3) 1 100 0 =
    match generate_numbers Z counter_draw 2 1 100 0 with
    | (Ok l1, s1) =>
        match generate_numbers Z counter_draw 3 1 100 s1 with
        | (Ok l2, s2) => (Ok (l1 ++ l2), s2)
        | (Raise e, s2) => (Raise e, s2)
        end
    | (Raise e, s1) => (Raise e, s1)
    end.
Proof. apply (generate_numbers_add Z counter_draw 2 3 1 100 0); lia. Defined.

(** ** The numeric scripts *)

Lemma statistics_agree x rest :
  messy_statistics (x :: rest) = main_statistics (x :: rest).
Proof.
  unfold messy_statistics, main_statistics.
  change (calculate_average (x :: rest))
    with (int_truediv (total_loop (x :: rest)) (len (x :: rest))).
  destruct (int_truediv _ _) as [average|e]; [|done].
  unfold step, first_item, find_max. by rewrite max_loop_max_from.
Qed.

(** X10.  For every non-empty list the loops of the first version and
    the functions of the second give the same run: while the mean is
    below [2^1024 - 2^970] in magnitude, three printed lines (the list,
    the average, the maximum) and no exception; from that magnitude on,
    the list alone and the [OverflowError] of the division.  For the
    empty list both stop after the first line, the first version with
    the [ZeroDivisionError] of its division and the second with the
    empty-input error. *)
Theorem statistics_refactoring numbers :
  match numbers with
  | [] =>
      messy_statistics numbers
        = Run [PNumbers "Generated numbers:" []]
              (Some (Exn ZeroDivisionError "division by zero")) /\
      main_statistics numbers
        = Run [PNumbers "Generated numbers:" []] (Some empty_input)
  | _ :: _ =>
      messy_statistics numbers = main_statistics numbers /\
      ((Z.abs (sum numbers) < (2 ^ 1024 - 2 ^ 970) * len numbers /\
        exists average max_num,
          main_statistics numbers
            = Run [PNumbers "Generated numbers:" numbers;
                   PFloat "Average:" average;
                   PInt "Max:" max_num] None) \/
       ((2 ^ 1024 - 2 ^ 970) * len numbers <= Z.abs (sum numbers) /\
        main_statistics numbers
          = Run [PNumbers "Generated numbers:" numbers] (Some overflow_error)))
  end.
Proof.
  destruct numbers as [|x rest]; [done|]. split; [apply statistics_agree|].
  destruct (int_truediv_spec (sum (x :: rest)) (len (x :: rest)) (len_pos x rest))
    as [Hok Hover].
  unfold main_statistics.
  change (calculate_average (x :: rest))
    with (int_truediv (sum (x :: rest)) (len (x :: rest))).
  destruct (Z_lt_le_dec (Z.abs (sum (x :: rest)))
              ((2 ^ 1024 - 2 ^ 970) * len (x :: rest))) as [Hsmall|Hlarge].
  - left. split; [done|]. destruct (Hok Hsmall) as (average & -> & _).
    by exists average, (max_from x rest).
  - right. split; [done|]. by rewrite (Hover Hlarge).
Qed.

Section NumericScriptProperties.

Variable rng : Type.
Variable draw : rng -> Z * rng.

(** X11.  Started with the generator in the same state, the two versions
    of the script print the same and leave the generator in the same
    state. *)
Theorem numeric_scripts_agree s :
  messy_numeric rng draw s = main_numeric rng draw s.
Proof.
  unfold messy_numeric, main_numeric, generate_numbers.
  destruct (comprehension_randint rng draw (range_len 10) 1 100 s ltac:(lia))
    as (l & s' & -> & Hlen & _).
  destruct l as [|x rest]; [discriminate|]. by rewrite statistics_agree.
Qed.

(** X12.  The script never ends with an exception.  It prints ten numbers
    between 1 and 100, their average, which lies between 1 and 100 as
    well, and their maximum, which is one of the numbers and not smaller
    than any of them; the generator has made ten draws. *)
Theorem main_numeric_succeeds s :
  exists nums average max_num,
    main_numeric rng draw s
      = (Run [PNumbers "Generated numbers:" nums;
              PFloat "Average:" average;
              PInt "Max:" max_num] None,
         after_draws rng draw 10 s) /\
    length nums = 10%nat /\
    Forall (fun x => 1 <= x <= 100) nums /\
    1 * 2 ^ 1074 <= float_units average <= 100 * 2 ^ 1074 /\
    max_num ∈ nums /\
    Forall (fun x => x <= max_num) nums.
Proof.
  unfold main_numeric, generate_numbers.
  pose proof (comprehension_randint_state rng draw (range_len 10) 1 100 s ltac:(lia))
    as Hstate.
  destruct (comprehension_randint rng draw (range_len 10) 1 100 s ltac:(lia))
    as (nums & s' & Hgen & Hlen & Hall).
  rewrite Hgen in *. simpl in Hstate. subst s'.
  assert (Hne : nums <> []) by (intros ->; discriminate).
  assert (Havg : exists average,
             calculate_average nums = Ok average /\
             1 * 2 ^ 1074 <= float_units average <= 100 * 2 ^ 1074).
  { pose proof (sum_bounds 1 100 nums Hall) as Hsum.
    destruct nums as [|x rest]; [done|]. unfold calculate_average.
    apply int_truediv_between; [apply len_pos|lia|lia|lia]. }
  destruct Havg as (average & Havg & Hbounds).
  destruct (find_max nums) as [max_num|e] eqn:Hmax.
  2:{ destruct nums; [done|discriminate]. }
  exists nums, average, max_num. unfold main_statistics. rewrite Havg, Hmax.
  apply find_max_iff in Hmax as [Hin Hub]. done.
Qed.

End NumericScriptProperties.

(** ** filter_by_category: limits, values, missing columns *)

Lemma slice_stop_negative n size :
  n < 0 -> slice_stop n size = Z.to_nat (Z.of_nat size + n).
Proof. intros Hn. unfold slice_stop. by rewrite (proj2 (Z.leb_gt 0 n)). Qed.

(** X13.  For a table that lacks the column [filter_by_category] raises
    the column-not-found error, whatever the value and the limit. *)
Theorem filter_by_category_missing_column df column value limit :
  column ∉ columns df ->
  filter_by_category df column value limit = Raise (column_not_found column).
Proof. intros Hnin. unfold filter_by_category. by rewrite has_column_false. Qed.

Lemma filter_by_category_missing_column_witness :
  filter_by_category iris_sample "petal_width" "setosa" 10
    = Raise (column_not_found "petal_width").
Proof.
  apply (filter_by_category_missing_column iris_sample "petal_width" "setosa" 10).
  apply (bool_decide_unpack ("petal_width" ∉ columns iris_sample)). by vm_compute.
Defined.

(** X14.  For a table with distinct column labels, a negative limit
    [-k] keeps all matching rows but the last [k]: the result is the
    matching rows without their last [k], none when there are at most [k]
    of them. *)
Theorem filter_by_category_negative df column value limit :
  NoDup (columns df) ->
  column ∈ columns df ->
  limit < 0 ->
  exists i out,
    get_loc column (columns df) = Some i /\
    filter_by_category df column value limit = Ok out /\
    let matching := filter (fun r => cell_at i r = CStr value) (rows df) in
    rows out = take (length matching - Z.to_nat (- limit)) matching /\
    len (rows out) = Z.max 0 (len matching + limit).
Proof.
  intros _ Hin Hneg. destruct (get_loc_Some _ _ Hin) as [i Hloc].
  exists i. eexists. split; [exact Hloc|].
  split; [by apply filter_by_category_unfold|]. simpl.
  rewrite slice_stop_negative by done.
  set (matching := filter _ (rows df)).
  replace (Z.to_nat (Z.of_nat (length matching) + limit))
    with (length matching - Z.to_nat (- limit))%nat by lia.
  split; [done|]. unfold len. rewrite length_take. lia.
Qed.

Lemma filter_by_category_negative_witness :
  exists i out,
    get_loc "species" (columns iris_sample) = Some i /\
    filter_by_category iris_sample "species" "setosa" (-1) = Ok out /\
    let matching := filter (fun r => cell_at i r = CStr "setosa") (rows iris_sample) in
    rows out = take (length matching - Z.to_nat (- -1)) matching /\
    len (rows out) = Z.max 0 (len matching + -1).
Proof.
  apply (filter_by_category_negative iris_sample "species" "setosa" (-1)); [| |lia].
  - apply (bool_decide_unpack (NoDup (columns iris_sample))). by vm_compute.
  - apply (bool_decide_unpack ("species" ∈ columns iris_sample)). by vm_compute.
Defined.

(** X15.  For a table with distinct column labels and a limit that is at
    least the number of matching rows, the result holds exactly the
    matching rows: a row is in the result if and only if it is a row of
    the table with the value in the column. *)
Theorem filter_by_category_complete df column value limit i :
  NoDup (columns df) ->
  get_loc column (columns df) = Some i ->
  len (filter (fun r => cell_at i r = CStr value) (rows df)) <= limit ->
  exists out,
    filter_by_category df column value limit = Ok out /\
    rows out = filter (fun r => cell_at i r = CStr value) (rows df) /\
    forall r, r ∈ rows out <-> r ∈ rows df /\ cell_at i r = CStr value.
Proof.
  intros _ Hloc Hlen. eexists. split; [by apply filter_by_category_unfold|]. simpl.
  unfold len in Hlen. rewrite slice_stop_nonneg by lia.
  rewrite take_ge by lia. split; [done|].
  intros r. rewrite list_elem_of_filter. tauto.
Qed.

Lemma filter_by_category_complete_witness :
  exists out,
    filter_by_category iris_sample "species" "setosa" 10 = Ok out /\
    rows out = filter (fun r => cell_at 1 r = CStr "setosa") (rows iris_sample) /\
    forall r, r ∈ rows out <-> r ∈ rows iris_sample /\ cell_at 1 r = CStr "setosa".
Proof.
  apply (filter_by_category_complete iris_sample "species" "setosa" 10 1%nat);
    [|reflexivity|by vm_compute].
  apply (bool_decide_unpack (NoDup (columns iris_sample))). by vm_compute.
Defined.

(** X16.  Filtering with the limit [a] and filtering the result with the
    limit [b] is filtering once with the smaller limit, for limits that
    are not negative.  (A table's column labels are distinct,
    [distinct_labels].) *)
Theorem filter_by_category_twice df column value a b :
  column ∈ columns df ->
  0 <= a -> 0 <= b ->
  exists out,
    filter_by_category df column value a = Ok out /\
    filter_by_category out column value b
      = filter_by_category df column value (Z.min a b).
Proof.
  intros Hin Ha Hb. destruct (get_loc_Some _ _ Hin) as [i Hloc].
  eexists. split; [by apply filter_by_category_unfold|].
  rewrite (filter_by_category_unfold _ _ _ b i) by done.
  rewrite (filter_by_category_unfold df _ _ (Z.min a b) i) by done. simpl.
  rewrite !slice_stop_nonneg by lia.
  set (matching := filter _ (rows df)).
  rewrite (filter_all _ (take _ matching)).
  2:{ apply Forall_take, Forall_filter_holds. }
  rewrite take_take. do 3 f_equal. lia.
Qed.

Lemma filter_by_category_twice_witness :
  exists out,
    filter_by_category iris_sample "species" "setosa" 3 = Ok out /\
    filter_by_category out "species" "setosa" 2
      = filter_by_category iris_sample "species" "setosa" (Z.min 3 2).
Proof.
  apply (filter_by_category_twice iris_sample "species" "setosa" 3 2); [|lia|lia].
  apply (bool_decide_unpack ("species" ∈ columns iris_sample)). by vm_compute.
Defined.

(** X17.  For a table with distinct column labels, the rows kept for one
    value hold no other value: filtering the result by a different value
    of the same column gives a table with the same columns and no rows,
    for any two limits. *)
Theorem filter_by_category_other_value df column value value' limit limit' :
  NoDup (columns df) ->
  column ∈ columns df ->
  value <> value' ->
  exists out out',
    filter_by_category df column value limit = Ok out /\
    filter_by_category out column value' limit' = Ok out' /\
    columns out' = columns df /\
    rows out' = [].
Proof.
  intros _ Hin Hne. destruct (get_loc_Some _ _ Hin) as [i Hloc].
  do 2 eexists. split; [by apply filter_by_category_unfold|].
  split; [by apply (filter_by_category_unfold _ _ _ limit' i)|].
  split; [done|]. cbn [rows].
  set (matching := filter (fun r => cell_at i r = CStr value) (rows df)).
  set (kept := take (slice_stop limit (length matching)) matching).
  rewrite (filter_none _ kept); [by rewrite take_nil|].
  subst kept. apply Forall_take.
  eapply Forall_impl; [apply Forall_filter_holds|].
  simpl. intros r ->. congruence.
Qed.

Lemma filter_by_category_other_value_witness :
  exists out out',
    filter_by_category iris_sample "species" "setosa" 10 = Ok out /\
    filter_by_category out "species" "virginica" 10 = Ok out' /\
    columns out' = columns iris_sample /\
    rows out' = [].
Proof.
  apply (filter_by_category_other_value iris_sample "species" "setosa" "virginica" 10 10).
  - apply (bool_decide_unpack (NoDup (columns iris_sample))). by vm_compute.
  - apply (bool_decide_unpack ("species" ∈ columns iris_sample)). by vm_compute.
  - discriminate.
Defined.

(** X18.  A larger limit only adds rows at the end: for [0 <= a <= b] the
    rows returned for the limit [a] are the first rows of those returned
    for the limit [b].  (A table's column labels are distinct,
    [distinct_labels].) *)
Theorem filter_by_category_limit_mono df column value a b :
  column ∈ columns df ->
  0 <= a <= b ->
  exists out_a out_b,
    filter_by_category df column value a = Ok out_a /\
    filter_by_category df column value b = Ok out_b /\
    rows out_a `prefix_of` rows out_b.
Proof.
  intros Hin Hab. destruct (get_loc_Some _ _ Hin) as [i Hloc].
  do 2 eexists. split; [by apply filter_by_category_unfold|].
  split; [by apply filter_by_category_unfold|]. simpl.
  rewrite !slice_stop_nonneg by lia.
  set (matching := filter _ (rows df)).
  replace (Z.to_nat a) with (Z.to_nat a `min` Z.to_nat b)%nat by lia.
  rewrite <- take_take. apply prefix_take.
Qed.

Lemma filter_by_category_limit_mono_witness :
  exists out_a out_b,
    filter_by_category iris_sample "species" "setosa" 1 = Ok out_a /\
    filter_by_category iris_sample "species" "setosa" 2 = Ok out_b /\
    rows out_a `prefix_of` rows out_b.
Proof.
  apply (filter_by_category_limit_mono iris_sample "species" "setosa" 1 2); [|lia].
  apply (bool_decide_unpack ("species" ∈ columns iris_sample)). by vm_compute.
Defined.

(** ** load_data and the column statistics together *)

Lemma df_empty_false df : df_empty df = false <-> columns df <> [] /\ rows df <> [].
Proof.
  unfold df_empty. destruct (columns df), (rows df); split; try done.
  all: intros [? ?]; done.
Qed.

Section TabularComposition.

Variable read_csv : string -> result DataFrame.
Variable series_mean : Series -> result cell.
Variable series_max : Series -> result cell.

Lemma load_data_ok_inv url df :
  load_data read_csv url = Ok df ->
  read_csv url = Ok df /\ columns df <> [] /\ rows df <> [].
Proof.
  rewrite <- df_empty_false. unfold load_data, try_except, bind.
  destruct (read_csv url) as [df'|e]; [|done].
  destruct (df_empty df') eqn:Hempty; [done|]. by intros [= ->].
Qed.

Lemma load_data_ok_intro url df :
  read_csv url = Ok df -> columns df <> [] -> rows df <> [] ->
  load_data read_csv url = Ok df.
Proof.
  intros Hread Hcols Hrows. unfold load_data. rewrite Hread. simpl.
  by rewrite (proj2 (df_empty_false df)).
Qed.

(** The column statistics of a table with a row and the column are the
    aggregates of the column. *)
Lemma column_statistics_delegate df column :
  rows df <> [] ->
  column ∈ columns df ->
  exists s,
    getitem df column = Ok s /\
    calculate_column_mean series_mean df column = series_mean s /\
    find_column_max series_max df column = series_max s.
Proof.
  intros Hrows Hin. destruct (get_loc_Some _ _ Hin) as [i Hloc].
  exists (cell_at i <$> rows df).
  assert (Hget : getitem df column = Ok (cell_at i <$> rows df)).
  { unfold getitem. by rewrite Hloc. }
  split; [done|]. unfold calculate_column_mean, find_column_max.
  rewrite has_column_true, Hget by done. simpl.
  by destruct (rows df).
Qed.

(** X19.  [load_data] returns a table exactly when the reader returns one
    that has a column and a row, and then returns the reader's table
    unchanged. *)
Theorem load_data_returns url df :
  load_data read_csv url = Ok df <->
  read_csv url = Ok df /\ columns df <> [] /\ rows df <> [].
Proof.
  split.
  - apply load_data_ok_inv.
  - intros (Hread & Hcols & Hrows). by apply load_data_ok_intro.
Qed.

(** X20.  Every failure of [load_data] is a [ValueError] whose text is
    the load-failure prefix with the URL followed by the text of the
    cause: the reader's exception, whatever its class, or the empty-data
    error when the reader gave a table without a row or a column. *)
Theorem load_data_failure url e :
  load_data read_csv url = Raise e <->
  exists cause,
    e = Exn ValueError ("Failed to load data from " +:+ url +:+ ": " +:+ exn_str cause) /\
    (read_csv url = Raise cause \/
     exists df, read_csv url = Ok df /\ df_empty df = true /\ cause = empty_data).
Proof.
  unfold load_data, try_except, bind.
  destruct (read_csv url) as [df|inner].
  - destruct (df_empty df) eqn:Hempty; split.
    + intros [= <-]. exists empty_data. split; [done|]. right. by exists df.
    + intros (cause & -> & [?|(df' & _ & _ & ->)]); done.
    + done.
    + intros (cause & _ & [?|(df' & [= <-] & ? & _)]); [done|congruence].
  - split.
    + intros [= <-]. exists inner. split; [done|]. by left.
    + intros (cause & -> & [[= ->]|(df' & ? & _)]); done.
Qed.

(** X21.  For a table that has the column and no row, both column
    statistics raise the empty-column error; the aggregates are not
    consulted.  (A table's column labels are distinct,
    [distinct_labels].) *)
Theorem empty_column_error df column :
  column ∈ columns df ->
  rows df = [] ->
  calculate_column_mean series_mean df column = Raise (empty_column column) /\
  find_column_max series_max df column = Raise (empty_column column).
Proof.
  intros Hin Hrows. destruct (get_loc_Some _ _ Hin) as [i Hloc].
  unfold calculate_column_mean, find_column_max, getitem.
  by rewrite has_column_true, Hloc, Hrows.
Qed.

(** X22.  On a table returned by [load_data] the column statistics of an
    existing column never raise the empty-column error: they are
    pandas' aggregates of the column, which has as many values as the
    reader's table has rows. *)
Theorem statistics_after_load url df column :
  load_data read_csv url = Ok df ->
  column ∈ columns df ->
  exists s,
    getitem df column = Ok s /\
    length s = length (rows df) /\
    s <> [] /\
    calculate_column_mean series_mean df column = series_mean s /\
    find_column_max series_max df column = series_max s.
Proof.
  intros Hload Hin. apply load_data_ok_inv in Hload as (_ & _ & Hrows).
  destruct (column_statistics_delegate df column Hrows Hin) as (s & Hget & Hmean & Hmax).
  exists s. split; [done|].
  assert (Hlen : length s = length (rows df)).
  { unfold getitem in Hget. destruct (get_loc column (columns df)); [|done].
    injection Hget as <-. apply length_fmap. }
  split; [done|]. split; [|done].
  intros ->. by destruct (rows df).
Qed.

End TabularComposition.

Lemma empty_column_error_witness :
  calculate_column_mean first_value header_only "species" = Raise (empty_column "species") /\
  find_column_max first_value header_only "species" = Raise (empty_column "species").
Proof.
  apply (empty_column_error first_value first_value header_only "species"); [|done].
  apply (bool_decide_unpack ("species" ∈ columns header_only)). by vm_compute.
Defined.

Lemma statistics_after_load_witness :
  exists s,
    getitem iris_sample "species" = Ok s /\
    length s = length (rows iris_sample) /\
    s <> [] /\
    calculate_column_mean first_value iris_sample "species" = first_value s /\
    find_column_max first_value iris_sample "species" = first_value s.
Proof.
  apply (statistics_after_load (fun _ => Ok iris_sample) first_value first_value
           "iris.csv" iris_sample "species"); [reflexivity|].
  apply (bool_decide_unpack ("species" ∈ columns iris_sample)). by vm_compute.
Defined.

(** ** The tabular scripts *)

Lemma head_head (a b : Z) df :
  0 <= a <= b -> head a (head b df) = head a df.
Proof.
  intros Hab. unfold head. simpl. f_equal.
  rewrite !slice_stop_nonneg by lia.
  rewrite take_take. f_equal. lia.
Qed.

Section TabularScriptProperties.

Variable read_csv : string -> result DataFrame.
Variable series_mean : Series -> result cell.
Variable series_max : Series -> result cell.

(** X23.  When the reader gives a table with a row and the column
    [species], and the two statistics return, the script prints the
    mean, the maximum, the heading and a table of at most ten rows, all
    of the species setosa and in the order of the reader's table, and
    ends without an exception. *)
Theorem main_tabular_succeeds df avg_sepal max_petal :
  read_csv IRIS_URL = Ok df ->
  rows df <> [] ->
  calculate_column_mean series_mean df "sepal_length" = Ok avg_sepal ->
  find_column_max series_max df "petal_width" = Ok max_petal ->
  "species" ∈ columns df ->
  exists i setosa_data,
    main_tabular read_csv series_mean series_max
      = Run [PCell "Average sepal length:" avg_sepal;
             PCell "Max petal width:" max_petal;
             PText "
Setosa species (first 10 rows):";
             PFrame setosa_data] None /\
    get_loc "species" (columns df) = Some i /\
    columns setosa_data = columns df /\
    len (rows setosa_data) <= 10 /\
    Forall (fun r => cell_at i r = CStr "setosa") (rows setosa_data) /\
    rows setosa_data `sublist_of` rows df.
Proof.
  intros Hread Hrows Hmean Hmax Hin.
  destruct (get_loc_Some _ _ Hin) as [i Hloc].
  assert (Hload : load_data read_csv IRIS_URL = Ok df).
  { apply load_data_ok_intro; [done| |done].
    intros Hcols. rewrite Hcols in Hin. by apply elem_of_nil in Hin. }
  exists i. eexists. unfold main_tabular, step.
  rewrite Hload, Hmean, Hmax, (filter_by_category_unfold _ _ _ _ i Hloc).
  split; [reflexivity|]. cbn [rows columns].
  split; [done|]. split; [done|].
  rewrite slice_stop_nonneg by lia.
  split; [unfold len; rewrite length_take; lia|].
  split; [apply Forall_take, Forall_filter_holds|].
  etrans; [apply sublist_take|]. apply sublist_filter.
Qed.

(** X24.  What was printed stays printed: when the table has a row and
    the mean of [sepal_length] returns but the column [petal_width] is
    missing, the script has printed the mean and nothing else when it
    ends with the column-not-found error. *)
Theorem main_tabular_partial_output df avg_sepal :
  read_csv IRIS_URL = Ok df ->
  rows df <> [] ->
  calculate_column_mean series_mean df "sepal_length" = Ok avg_sepal ->
  "petal_width" ∉ columns df ->
  main_tabular read_csv series_mean series_max
    = Run [PCell "Average sepal length:" avg_sepal]
          (Some (column_not_found "petal_width")).
Proof.
  intros Hread Hrows Hmean Hnin.
  assert (Hload : load_data read_csv IRIS_URL = Ok df).
  { apply load_data_ok_intro; [done| |done].
    intros Hcols. unfold calculate_column_mean, has_column in Hmean.
    rewrite Hcols in Hmean. done. }
  unfold main_tabular. rewrite Hload. simpl. rewrite Hmean. simpl.
  unfold find_column_max. by rewrite has_column_false.
Qed.

(** X25.  Whenever the second version of the script runs to its end, the
    first version does so too, on the same reader and aggregates: it
    prints the same mean and maximum and, without the heading, the first
    five of the rows the second version prints. *)
Theorem tabular_scripts_agree avg_sepal max_petal text setosa_data :
  main_tabular read_csv series_mean series_max
    = Run [PCell "Average sepal length:" avg_sepal;
           PCell "Max petal width:" max_petal;
           PText text;
           PFrame setosa_data] None ->
  messy_tabular read_csv series_mean series_max
    = Run [PCell "Average sepal length:" avg_sepal;
           PCell "Max petal width:" max_petal;
           PFrame (head 5 setosa_data)] None.
Proof.
  unfold main_tabular, messy_tabular.
  destruct (load_data read_csv IRIS_URL) as [df|e] eqn:Hload; [|discriminate].
  apply load_data_ok_inv in Hload as (-> & _ & Hrows). simpl.
  destruct (calculate_column_mean series_mean df "sepal_length") as [avg|e] eqn:Hmean;
    [|discriminate]. simpl.
  destruct (find_column_max series_max df "petal_width") as [mx|e] eqn:Hmax;
    [|discriminate]. simpl.
  destruct (filter_by_category df "species" "setosa" 10) as [out|e] eqn:Hfilter;
    [|discriminate]. simpl.
  intros [= -> -> _ ->].
  assert (Hsepal : "sepal_length" ∈ columns df).
  { destruct (decide ("sepal_length" ∈ columns df)) as [|Hnin]; [done|].
    unfold calculate_column_mean in Hmean. by rewrite has_column_false in Hmean. }
  assert (Hpetal : "petal_width" ∈ columns df).
  { destruct (decide ("petal_width" ∈ columns df)) as [|Hnin]; [done|].
    unfold find_column_max in Hmax. by rewrite has_column_false in Hmax. }
  assert (Hspecies : "species" ∈ columns df).
  { destruct (decide ("species" ∈ columns df)) as [|Hnin]; [done|].
    unfold filter_by_category in Hfilter. by rewrite has_column_false in Hfilter. }
  destruct (column_statistics_delegate series_mean series_max df _ Hrows Hsepal)
    as (s1 & Hget1 & Hmean1 & _).
  destruct (column_statistics_delegate series_mean series_max df _ Hrows Hpetal)
    as (s2 & Hget2 & _ & Hmax2).
  rewrite Hget1, Hget2. simpl. rewrite <- Hmean1, Hmean. simpl.
  rewrite <- Hmax2, Hmax. simpl.
  unfold filter_by_category in Hfilter. rewrite has_column_true in Hfilter by done.
  simpl in Hfilter. destruct (getitem df "species") as [species|e]; [|discriminate].
  simpl in *. injection Hfilter as <-.
  by rewrite head_head by lia.
Qed.

End TabularScriptProperties.

Lemma main_tabular_succeeds_witness :
  exists i setosa_data,
    main_tabular (fun _ => Ok iris_rows) first_value first_value
      = Run [PCell "Average sepal length:" (CFloat (Float 5742089524897382 (-50)));
             PCell "Max petal width:" (CFloat (Float 7205759403792794 (-55)));
             PText "
Setosa species (first 10 rows):";
             PFrame setosa_data] None /\
    get_loc "species" (columns iris_rows) = Some i /\
    columns setosa_data = columns iris_rows /\
    len (rows setosa_data) <= 10 /\
    Forall (fun r => cell_at i r = CStr "setosa") (rows setosa_data) /\
    rows setosa_data `sublist_of` rows iris_rows.
Proof.
  apply (main_tabular_succeeds (fun _ => Ok iris_rows) first_value first_value iris_rows);
    [reflexivity|discriminate|reflexivity|reflexivity|].
  apply (bool_decide_unpack ("species" ∈ columns iris_rows)). by vm_compute.
Defined.

Lemma main_tabular_partial_output_witness :
  main_tabular (fun _ => Ok iris_sample) first_value first_value
    = Run [PCell "Average sepal length:" (CFloat (Float 5742089524897382 (-50)))]
          (Some (column_not_found "petal_width")).
Proof.
  apply (main_tabular_partial_output (fun _ => Ok iris_sample) first_value first_value
           iris_sample); [reflexivity|discriminate|reflexivity|].
  apply (bool_decide_unpack ("petal_width" ∉ columns iris_sample)). by vm_compute.
Defined.

Lemma tabular_scripts_agree_witness :
  messy_tabular (fun _ => Ok iris_rows) first_value first_value
    = Run [PCell "Average sepal length:" (CFloat (Float 5742089524897382 (-50)));
           PCell "Max petal width:" (CFloat (Float 7205759403792794 (-55)));
           PFrame (head 5 (Frame (columns iris_rows) (distinct_labels iris_rows)
                             [ Row 0 [CFloat (Float 5742089524897382 (-50));
                                      CFloat (Float 7205759403792794 (-55));
                                      CStr "setosa"];
                               Row 2 [CFloat (Float 5516909543528858 (-50));
                                      CFloat (Float 7205759403792794 (-55));
                                      CStr "setosa"] ]))] None.
Proof.
  apply (tabular_scripts_agree (fun _ => Ok iris_rows) first_value first_value
           _ _ "
Setosa species (first 10 rows):" _).
  reflexivity.
Defined.

(** ** Averages of lists with the same mean *)

Lemma round_half_even_scale k n d :
  0 < k -> 0 < d -> round_half_even (k * n) (k * d) = round_half_even n d.
Proof.
  intros Hk Hd. unfold round_half_even.
  rewrite Z.div_mul_cancel_l, Z.mul_mod_distr_l by lia.
  replace (2 * (k * (n mod d))) with (k * (2 * (n mod d))) by ring.
  destruct (Z.compare_spec (2 * (n mod d)) d),
           (Z.compare_spec (k * (2 * (n mod d))) (k * d)); try done; nia.
Qed.

Lemma round_ratio_scale k n d :
  0 < k -> 0 < d -> round_ratio (k * n) (k * d) = round_ratio n d.
Proof.
  intros Hk Hd. unfold round_ratio, quotient_exp.
  replace (k * n * 2 ^ 1074) with (k * (n * 2 ^ 1074)) by ring.
  rewrite Z.div_mul_cancel_l by lia.
  set (e := Z.max _ 0).
  assert (0 < 2 ^ e) by (apply Z.pow_pos_nonneg; lia).
  replace (k * d * 2 ^ e) with (k * (d * 2 ^ e)) by ring.
  by rewrite round_half_even_scale by lia.
Qed.

Lemma int_truediv_scale k a b :
  0 < k -> 0 < b -> int_truediv (k * a) (k * b) = int_truediv a b.
Proof.
  intros Hk Hb. unfold int_truediv.
  rewrite (proj2 (Z.eqb_neq (k * b) 0)), (proj2 (Z.eqb_neq b 0)) by lia.
  rewrite !Z.abs_mul, !Z.sgn_mul, (Z.abs_eq k), (Z.sgn_pos k), (Z.abs_eq b) by lia.
  rewrite round_ratio_scale by done.
  destruct (round_ratio (Z.abs a) b) as [m e].
  destruct (971 <? e); [done|]. do 2 f_equal. ring.
Qed.

(** X26.  The average depends on the mean alone: two non-empty lists
    whose sums are in the proportion of their lengths have the same
    average, also when it is an overflow error.  (Repeating a list is a
    case of it.) *)
Theorem calculate_average_same_mean numbers numbers' :
  numbers <> [] -> numbers' <> [] ->
  sum numbers * len numbers' = sum numbers' * len numbers ->
  calculate_average numbers = calculate_average numbers'.
Proof.
  intros Hne Hne' Hmean.
  destruct numbers as [|x rest]; [done|]. destruct numbers' as [|x' rest']; [done|].
  pose proof (len_pos x rest) as Hlen. pose proof (len_pos x' rest') as Hlen'.
  unfold calculate_average.
  rewrite <- (int_truediv_scale (len (x' :: rest')) (sum (x :: rest))) by done.
  rewrite <- (int_truediv_scale (len (x :: rest)) (sum (x' :: rest'))) by done.
  f_equal; lia.
Qed.

Lemma calculate_average_same_mean_witness :
  calculate_average [1; 2] = calculate_average [3; 0; 2; 1].
Proof.
  apply (calculate_average_same_mean [1; 2] [3; 0; 2; 1]);
    [discriminate|discriminate|reflexivity].
Defined.

(** X27.  The average never exceeds the maximum, rounding included, for
    numbers of less than 54 bits. *)
Theorem calculate_average_le_find_max numbers max_num :
  Forall (fun x => - 2 ^ 53 < x) numbers ->
  find_max numbers = Ok max_num ->
  max_num < 2 ^ 53 ->
  exists average,
    calculate_average numbers = Ok average /\
    float_units average <= max_num * 2 ^ 1074.
Proof.
  intros Hlow Hmax Hsmall.
  assert (Hne : numbers <> []) by (intros ->; discriminate).
  apply find_max_iff in Hmax as [_ Hub].
  assert (Hall : Forall (fun x => - 2 ^ 53 + 1 <= x <= max_num) numbers).
  { rewrite Forall_forall in Hlow, Hub. apply Forall_forall. intros x Hx.
    specialize (Hlow x Hx). specialize (Hub x Hx). simpl in *. lia. }
  pose proof (sum_bounds _ _ numbers Hall) as Hsum.
  destruct numbers as [|x rest]; [done|]. unfold calculate_average.
  destruct (int_truediv_between (- 2 ^ 53 + 1) max_num
              (sum (x :: rest)) (len (x :: rest)))
    as (average & Havg & _ & Hle); [apply len_pos|lia|done|lia|].
  by exists average.
Qed.

Lemma calculate_average_le_find_max_witness :
  exists average,
    calculate_average [3; 9; 4] = Ok average /\
    float_units average <= 9 * 2 ^ 1074.
Proof.
  apply (calculate_average_le_find_max [3; 9; 4] 9); [|reflexivity|lia].
  repeat constructor; lia.
Defined.

(** ** Statistics of a filtered table *)

Section FilteredStatistics.

Variable series_mean : Series -> result cell.
Variable series_max : Series -> result cell.

(** X28.  The empty-column error is what a statistic of a category that
    does not occur gives: for a table with distinct column labels none
    of whose rows holds the value, the filtered table has every column
    and no row, and both statistics of any of its columns raise the
    empty-column error. *)
Theorem statistics_of_absent_category df column value limit i other :
  NoDup (columns df) ->
  get_loc column (columns df) = Some i ->
  Forall (fun r => cell_at i r <> CStr value) (rows df) ->
  other ∈ columns df ->
  exists out,
    filter_by_category df column value limit = Ok out /\
    columns out = columns df /\
    rows out = [] /\
    calculate_column_mean series_mean out other = Raise (empty_column other) /\
    find_column_max series_max out other = Raise (empty_column other).
Proof.
  intros _ Hloc Hnone Hother.
  eexists. split; [by apply filter_by_category_unfold|].
  rewrite filter_none by done. rewrite take_nil.
  split; [done|]. split; [done|].
  destruct (get_loc_Some _ _ Hother) as [j Hj].
  unfold calculate_column_mean, find_column_max, getitem. cbn [columns rows].
  by rewrite has_column_true, Hj.
Qed.

End FilteredStatistics.

Lemma statistics_of_absent_category_witness :
  exists out,
    filter_by_category iris_sample "species" "tulip" 10 = Ok out /\
    columns out = columns iris_sample /\
    rows out = [] /\
    calculate_column_mean first_value out "sepal_length"
      = Raise (empty_column "sepal_length") /\
    find_column_max first_value out "sepal_length"
      = Raise (empty_column "sepal_length").
Proof.
  apply (statistics_of_absent_category first_value first_value
           iris_sample "species" "tulip" 10 1%nat "sepal_length"); [|reflexivity| |].
  - apply (bool_decide_unpack (NoDup (columns iris_sample))). by vm_compute.
  - repeat constructor; discriminate.
  - apply (bool_decide_unpack ("sepal_length" ∈ columns iris_sample)). by vm_compute.
Defined.
